(** * The shared database client and its three service adapters

    A shallow embedding of
      - [packages/db/index.ts]        (pool and client construction),
      - the REST adapter of the backend service (the four Express routes),
      - [apps/ws/index.ts]            (the WebSocket [message] handler),
      - the server-rendered page      ([Home]),
      - [migration.sql] of [add_todo] (the [Todo] table and its constraints).

    Handlers are written as small programs over the Prisma calls they make;
    the programs are run against a model of the two tables. *)

From stdpp Require Import base relations list strings numbers pretty.

Local Open Scope string_scope.
Local Open Scope list_scope.

(** ** JavaScript values read from a request body *)

(** A parsed JSON value. Number literals are kept as integers: the handlers
    only test a number for truthiness and never compute with it. A string is
    kept as the bytes of its UTF-8 encoding. *)
#[local] Unset Elimination Schemes.
Inductive json : Type :=
| JNull
| JBool (b : bool)
| JNum (n : Z)
| JStr (s : string)
| JArr (items : list json)
| JObj (fields : list (string * json)).
#[local] Set Elimination Schemes.

(** A JavaScript value as seen by the handlers: [None] is [undefined]. *)
Definition jsval : Type := option json.

(** [!v] is [negb (truthy v)]. *)
Definition truthy (v : jsval) : bool :=
  match v with
  | None => false
  | Some JNull => false
  | Some (JBool b) => b
  | Some (JNum n) => negb (n =? 0)%Z
  | Some (JStr s) => negb (String.eqb s "")
  | Some (JArr _) => true
  | Some (JObj _) => true
  end.

(** [req.body] after [express.json()] has parsed a JSON object: its members,
    in the order of the request text. (An array body has none of the members
    read below and behaves as the empty object; a request without a JSON body
    is outside this model.) *)
Definition req_body : Type := list (string * json).

(** Property read [body.key], as done by the destructuring
    [const {a, b} = req.body]. A key written twice keeps its last value, as
    [JSON.parse] does. *)
Fixpoint field (key : string) (body : req_body) : jsval :=
  match body with
  | [] => None
  | (k, v) :: rest =>
      match field key rest with
      | Some v' => Some v'
      | None => if String.eqb k key then Some v else None
      end
  end.

(** ** Persisted records *)

Module User.
(** Modelled from the spec: the [User] table is created by a migration that
    is not part of this slice; the spec gives it the columns
    [id] (generated, unique), [username] and [password], all text. *)
Record t : Type := mk { id : string; username : string; password : string }.
End User.

Module Todo.
(** [CREATE TABLE "Todo"] of [migration.sql]. *)
Record t : Type := mk { id : string; task : string; done : bool; userId : string }.
End Todo.

(** The two tables. Rows are kept in insertion order. *)
Record DB : Type := mkDB { users : list User.t; todos : list Todo.t }.

Definition empty_db : DB := mkDB [] [].

Definition user_ids (d : DB) : list string := User.id <$> users d.
Definition todo_ids (d : DB) : list string := Todo.id <$> todos d.

(** ** Storage statements and the constraints of the schema *)

Inductive db_error : Type :=
| InvalidByteSequence
| UniqueViolation (constraint : string)
| ForeignKeyViolation (constraint : string).

(** The string holds the character U+0000. PostgreSQL's [TEXT] cannot: a
    statement that carries such a value is refused before any constraint is
    looked at. *)
Fixpoint has_nul (s : string) : bool :=
  match s with
  | EmptyString => false
  | String c rest => Ascii.eqb c Ascii.zero || has_nul rest
  end.

(** Modelled from the spec: the migration of the [User] table is not part of
    this slice; the spec makes [id] its unique identifier and its three
    columns text, so an [INSERT INTO "User"] needs three texts the store can
    hold and a new key. *)
Definition db_insert_user (u : User.t) (d : DB) : db_error + DB :=
  if has_nul (User.id u) || has_nul (User.username u)
     || has_nul (User.password u)
  then inl InvalidByteSequence
  else if bool_decide (User.id u ∈ user_ids d)
  then inl (UniqueViolation "User_pkey")
  else inr (mkDB (users d ++ [u]) (todos d)).

(** The row stored by [INSERT INTO "Todo"]: [done] carries
    [NOT NULL DEFAULT false], so a statement that leaves it out stores
    [false]. *)
Definition todo_row (id task : string) (done : option bool) (userId : string)
  : Todo.t :=
  Todo.mk id task (default false done) userId.

(** [INSERT INTO "Todo"]: the three [TEXT] values, then [Todo_pkey] (line 8
    of the migration), then [Todo_userId_fkey] (line 12). *)
Definition db_insert_todo (id task : string) (done : option bool)
    (userId : string) (d : DB) : db_error + DB :=
  if has_nul id || has_nul task || has_nul userId
  then inl InvalidByteSequence
  else if bool_decide (id ∈ todo_ids d)
  then inl (UniqueViolation "Todo_pkey")
  else if bool_decide (userId ∈ user_ids d)
  then inr (mkDB (users d) (todos d ++ [todo_row id task done userId]))
  else inl (ForeignKeyViolation "Todo_userId_fkey").

(** [DELETE FROM "User" WHERE id = ...] under [ON DELETE RESTRICT]. *)
Definition db_delete_user (id : string) (d : DB) : db_error + DB :=
  if bool_decide (id ∈ Todo.userId <$> todos d)
  then inl (ForeignKeyViolation "Todo_userId_fkey")
  else inr (mkDB (filter (λ u, User.id u ≠ id) (users d)) (todos d)).

(** [DELETE FROM "Todo" WHERE id = ...]. *)
Definition db_delete_todo (id : string) (d : DB) : db_error + DB :=
  inr (mkDB (users d) (filter (λ t, Todo.id t ≠ id) (todos d))).

Definition rename_user (old new : string) (u : User.t) : User.t :=
  if bool_decide (User.id u = old)
  then User.mk new (User.username u) (User.password u) else u.

Definition retarget_todo (old new : string) (t : Todo.t) : Todo.t :=
  if bool_decide (Todo.userId t = old)
  then Todo.mk (Todo.id t) (Todo.task t) (Todo.done t) new else t.

(** [UPDATE "User" SET id = new WHERE id = old] under [ON UPDATE CASCADE]:
    the referencing [Todo] rows follow the new id. A row that is written gets
    a new version, which is read back after the rows that were left alone;
    the cascade writes the referencing rows only when the key changes. *)
Definition db_update_user_id (old new : string) (d : DB) : db_error + DB :=
  if has_nul old || has_nul new then inl InvalidByteSequence
  else if bool_decide (old ∈ user_ids d)
  then if bool_decide (old ≠ new ∧ new ∈ user_ids d)
       then inl (UniqueViolation "User_pkey")
       else inr (mkDB
                   (filter (λ u, User.id u ≠ old) (users d)
                    ++ (rename_user old new
                          <$> filter (λ u, User.id u = old) (users d)))
                   (if bool_decide (old = new) then todos d
                    else filter (λ t, Todo.userId t ≠ old) (todos d)
                         ++ (retarget_todo old new
                               <$> filter (λ t, Todo.userId t = old)
                                     (todos d))))
  else inr d.

(** The statements the schema admits on the two key columns. *)
Inductive db_op : Type :=
| OInsertUser (u : User.t)
| OInsertTodo (id task : string) (done : option bool) (userId : string)
| ODeleteUser (id : string)
| ODeleteTodo (id : string)
| OUpdateUserId (old new : string).

Definition db_apply (o : db_op) (d : DB) : db_error + DB :=
  match o with
  | OInsertUser u => db_insert_user u d
  | OInsertTodo id task done userId => db_insert_todo id task done userId d
  | ODeleteUser id => db_delete_user id d
  | ODeleteTodo id => db_delete_todo id d
  | OUpdateUserId old new => db_update_user_id old new d
  end.

(** States the storage engine can be in: the empty tables of the migration,
    followed by any statements that were accepted. *)
Inductive reachable : DB → Prop :=
| reachable_empty : reachable empty_db
| reachable_step o d d' :
    reachable d → db_apply o d = inr d' → reachable d'.

(** Every [Todo.userId] is the id of a stored [User]. *)
Definition fk_ok (d : DB) : Prop :=
  ∀ t, t ∈ todos d → Todo.userId t ∈ user_ids d.

(** The keys of both tables are unique and every reference resolves. *)
Definition consistent (d : DB) : Prop :=
  NoDup (user_ids d) ∧ NoDup (todo_ids d) ∧ fk_ok d.

Definition swap_id (old new i : string) : string :=
  if bool_decide (i = old) then new else i.

(** ** [packages/db/index.ts]: the pool and the shared client *)

(** [new pg.Pool({connectionString})]: the pool keeps its options and opens
    no connection until it is used. *)
Record Pool : Type := mkPool { pool_connectionString : string }.

(** [new PrismaPg(pgPool)]. *)
Record PrismaPg : Type := mkPrismaPg { adapter_pool : Pool }.

(** [new PrismaClient({adapter})]. *)
Record PrismaClient : Type := mkPrismaClient { client_adapter : PrismaPg }.

(** What evaluating a module can end in: a thrown error or its export. *)
Definition module_result (A : Type) : Type := string + A.

#[global] Instance module_bind : MBind module_result :=
  λ A B f m, match m with inl e => inl e | inr a => f a end.

Definition new_Pool (connectionString : string) : module_result Pool :=
  inr (mkPool connectionString).
Definition new_PrismaPg (pool : Pool) : module_result PrismaPg :=
  inr (mkPrismaPg pool).
Definition new_PrismaClient (adapter : PrismaPg) : module_result PrismaClient :=
  inr (mkPrismaClient adapter).

(** [process.env.DATABASE_URL || ''], where [DATABASE_URL] is the value of the
    variable after [dotenv.config()], [None] when it is not set. *)
Definition connectionString (DATABASE_URL : option string) : string :=
  match DATABASE_URL with
  | Some s => if truthy (Some (JStr s)) then s else ""
  | None => ""
  end.

(** The module body, top to bottom; its default export is the client. *)
Definition prismaClient (DATABASE_URL : option string)
  : module_result PrismaClient :=
  pgPool ← new_Pool (connectionString DATABASE_URL);
  adapter ← new_PrismaPg pgPool;
  new_PrismaClient adapter.

Definition client_url (cl : PrismaClient) : string :=
  pool_connectionString (adapter_pool (client_adapter cl)).

(** ** The Prisma calls of the handlers *)

(** One constructor per call the source makes; the index is the type the
    promise resolves to. The [data] members are passed as the handler has
    them, unchecked. *)
Inductive storageE : Type → Type :=
| UserFindMany : storageE (list User.t)
| TodoFindMany : storageE (list Todo.t)
| UserCreate (username password : jsval) : storageE User.t
| TodoCreate (task userId done : jsval) : storageE Todo.t.

Inductive fault : Type := Unreachable | Timeout.

(** What a rejected Prisma promise carries. *)
Inductive prisma_error : Type :=
| EValidation
| EFault (f : fault)
| EConstraint (e : db_error).

(** What the handlers do not control: which connection strings lead to the
    store, whether the [n]-th round-trip is cut short, the id Prisma
    generates for the [n]-th call, and the [n]-th draw of
    [Math.random().toString()]. *)
Record Env : Type := mkEnv {
  connects : string → bool;
  fault_at : nat → option fault;
  id_at : nat → string;
  rand_at : nat → string;
}.

(** Modelled from the spec: [schema.prisma] is not part of this slice. Its
    [User] model has the string fields [username] and [password]; its [Todo]
    model follows the migration: [task] and [userId] are strings, [done] is a
    boolean that may be left out. *)
Definition as_string (v : jsval) : option string :=
  match v with Some (JStr s) => Some s | _ => None end.

Definition as_optional_bool (v : jsval) : option (option bool) :=
  match v with
  | None => Some None
  | Some (JBool b) => Some (Some b)
  | _ => None
  end.

(** A round-trip to the store through the pool of [cl], for call number [n]. *)
Definition round_trip (env : Env) (cl : PrismaClient) (n : nat) : option fault :=
  if connects env (client_url cl) then fault_at env n else Some Unreachable.

(** One awaited Prisma call: the data is checked against the model, the
    statement goes through the pool, and the store refuses a text with
    U+0000 or applies its constraints. *)
Definition query {T} (env : Env) (cl : PrismaClient) (n : nat)
    (c : storageE T) (d : DB) : (prisma_error + T) * DB :=
  match c in storageE T return (prisma_error + T) * DB with
  | UserFindMany =>
      match round_trip env cl n with
      | Some f => (inl (EFault f), d)
      | None => (inr (users d), d)
      end
  | TodoFindMany =>
      match round_trip env cl n with
      | Some f => (inl (EFault f), d)
      | None => (inr (todos d), d)
      end
  | UserCreate username password =>
      match as_string username, as_string password with
      | Some u, Some p =>
          match round_trip env cl n with
          | Some f => (inl (EFault f), d)
          | None =>
              let row := User.mk (id_at env n) u p in
              match db_insert_user row d with
              | inl e => (inl (EConstraint e), d)
              | inr d' => (inr row, d')
              end
          end
      | _, _ => (inl EValidation, d)
      end
  | TodoCreate task userId done =>
      match as_string task, as_string userId, as_optional_bool done with
      | Some t, Some u, Some dn =>
          match round_trip env cl n with
          | Some f => (inl (EFault f), d)
          | None =>
              match db_insert_todo (id_at env n) t dn u d with
              | inl e => (inl (EConstraint e), d)
              | inr d' => (inr (todo_row (id_at env n) t dn u), d')
              end
          end
      | _, _, _ => (inl EValidation, d)
      end
  end.

(** ** Handlers as programs *)

(** What [res.json] is given. *)
Inductive res_body : Type :=
| BUsers (rows : list User.t)
| BTodos (rows : list Todo.t)
| BUser (row : User.t)
| BTodo (row : Todo.t)
| BError (error : string).

(** A WebSocket message: [string | Buffer]. *)
Inductive ws_data : Type :=
| Text (s : string)
| Binary (bytes : list Byte.byte).

(** What a handler hands to its transport. *)
Inductive outbound : Type :=
| Http (status : Z) (body : res_body)
| WsSend (data : ws_data)
| Page (rows : list User.t).

(** The body of an [async] handler.
    - [Await c k]: [await c], then [k] on the settled promise;
    - [Fire c k]: the promise of [c] is created and dropped, [k] goes on
      without it;
    - [Random k]: [Math.random().toString()];
    - [Send o k]: [res.status(..).json(..)], [ws.send(..)] or the returned
      page;
    - [Throw e]: the handler's own promise rejects with [e]. *)
Inductive Prog : Type :=
| Done
| Throw (e : prisma_error)
| Await {T} (c : storageE T) (k : prisma_error + T → Prog)
| Fire {T} (c : storageE T) (k : Prog)
| Random (k : string → Prog)
| Send (o : outbound) (k : Prog).

(** [res.status(500).json({ error: 'Internal Server Error' })]. *)
Definition internal_server_error : outbound :=
  Http 500 (BError "Internal Server Error").

(** [app.get('/')]. *)
Definition get_root : Prog :=
  Await UserFindMany (λ r,
    match r with
    | inr users => Send (Http 200 (BUsers users)) Done
    | inl _ => Send internal_server_error Done
    end).

(** [app.get('/todos')]. *)
Definition get_todos : Prog :=
  Await TodoFindMany (λ r,
    match r with
    | inr todos => Send (Http 200 (BTodos todos)) Done
    | inl _ => Send internal_server_error Done
    end).

(** [app.post('/')]. *)
Definition post_root (body : req_body) : Prog :=
  let username := field "username" body in
  let password := field "password" body in
  if negb (truthy username) || negb (truthy password)
  then Send (Http 400 (BError "Username and password are required")) Done
  else
    Await (UserCreate username password) (λ r,
      match r with
      | inr user => Send (Http 201 (BUser user)) Done
      | inl _ => Send internal_server_error Done
      end).

(** [app.post('/todos')]. *)
Definition post_todos (body : req_body) : Prog :=
  let task := field "task" body in
  let userId := field "userId" body in
  let done := field "done" body in
  if negb (truthy task) || negb (truthy userId)
  then Send (Http 400 (BError "Task and userId are required")) Done
  else
    Await (TodoCreate task userId done) (λ r,
      match r with
      | inr todo => Send (Http 201 (BTodo todo)) Done
      | inl _ => Send internal_server_error Done
      end).

Inductive route : Type := GET_root | GET_todos | POST_root | POST_todos.

(** The Express application: the handler registered for each route. *)
Definition app (r : route) (body : req_body) : Prog :=
  match r with
  | GET_root => get_root
  | GET_todos => get_todos
  | POST_root => post_root body
  | POST_todos => post_todos body
  end.

(** [websocket.message] of [apps/ws/index.ts]. The two [console] lines write
    to the process log only and are left out; [ws.send] hands the frame to
    the socket and returns a status, it does not throw. *)
Definition message (msg : ws_data) : Prog :=
  Random (λ username,
  Random (λ password,
    Await (UserCreate (Some (JStr username)) (Some (JStr password))) (λ r,
      match r with
      | inr _ => Send (WsSend msg) Done
      | inl _ => Send (WsSend (Text "Error creating user")) Done
      end))).

(** The page component [Home]: no [try], so a rejected [findMany] rejects
    the render. *)
Definition Home : Prog :=
  Await UserFindMany (λ r,
    match r with
    | inr users => Send (Page users) Done
    | inl e => Throw e
    end).

(** The handler shown as the mistake in the troubleshooting notes
    ([message(ws, message) { prismaClient.user.create({...}) }]): the same
    call, without [await]. *)
Definition message_unawaited (username password : string) : Prog :=
  Fire (UserCreate (Some (JStr username)) (Some (JStr password))) Done.

(** An inbound trigger of one of the three services. *)
Inductive trigger : Type :=
| HttpRequest (r : route) (body : req_body)
| WsMessage (msg : ws_data)
| PageRender.

Definition handle (t : trigger) : Prog :=
  match t with
  | HttpRequest r body => app r body
  | WsMessage msg => message msg
  | PageRender => Home
  end.

(** ** Running a handler *)

Inductive event : Type :=
| Called {T} (c : storageE T) (r : prisma_error + T)
| Dropped {T} (c : storageE T)
| Sent (o : outbound)
| Uncaught (e : prisma_error).

(** The store, the number of Prisma calls and random draws made so far, and
    everything observable that happened, oldest first. *)
Record World : Type := mkWorld {
  db : DB;
  ncalls : nat;
  nrand : nat;
  trace : list event;
}.

Definition log (e : event) (w : World) : World :=
  mkWorld (db w) (ncalls w) (nrand w) (trace w ++ [e]).

(** A Prisma promise does nothing until it is awaited: [Fire] leaves the
    store as it is. *)
Fixpoint run (env : Env) (cl : PrismaClient) (p : Prog) (w : World) : World :=
  match p with
  | Done => w
  | Throw e => log (Uncaught e) w
  | Await c k =>
      let '(r, d') := query env cl (ncalls w) c (db w) in
      run env cl (k r)
        (mkWorld d' (S (ncalls w)) (nrand w) (trace w ++ [Called c r]))
  | Fire c k => run env cl k (log (Dropped c) w)
  | Random k =>
      run env cl (k (rand_at env (nrand w)))
        (mkWorld (db w) (ncalls w) (S (nrand w)) (trace w))
  | Send o k => run env cl k (log (Sent o) w)
  end.

(** A service handling its triggers one after the other. *)
Definition serve (env : Env) (cl : PrismaClient) (ts : list trigger)
    (w : World) : World :=
  foldl (λ w t, run env cl (handle t) w) w ts.

Definition boot (d : DB) : World := mkWorld d 0 0 [].

(** The spy: the Prisma calls that were awaited, and what was sent. *)
Definition calls (w : World) : list (sigT storageE) :=
  omap (λ e, match e with Called c _ => Some (existT _ c) | _ => None end)
       (trace w).

Definition sent (w : World) : list outbound :=
  omap (λ e, match e with Sent o => Some o | _ => None end) (trace w).

Definition dropped (w : World) : list (sigT storageE) :=
  omap (λ e, match e with Dropped c => Some (existT _ c) | _ => None end)
       (trace w).

(** ** What a Prisma call can do to the store *)

(** The only ways a call of the handlers changes the tables: not at all, or
    by one accepted [INSERT]. *)
Inductive inserted : DB → DB → Prop :=
| inserted_none d : inserted d d
| inserted_user u d d' : db_insert_user u d = inr d' → inserted d d'
| inserted_todo id task done userId d d' :
    db_insert_todo id task done userId d = inr d' → inserted d d'.

(** The rows of [d] are still there in [d'], unchanged and in place. *)
Definition preserved (d d' : DB) : Prop :=
  users d `prefix_of` users d' ∧ todos d `prefix_of` todos d'.

(** The events of a run have one of three shapes: a response with no call
    before it, a settled call followed by the response, or a settled call
    followed by the rejection of the handler. *)
Inductive awaited_shape : list event → Prop :=
| shape_no_call o : awaited_shape [Sent o]
| shape_call_then_send {T} (c : storageE T) r o :
    awaited_shape [Called c r; Sent o]
| shape_call_then_throw {T} (c : storageE T) r e :
    awaited_shape [Called c r; Uncaught e].

(** A handler that lets go of a storage call without awaiting it. *)
Definition unawaited (p : Prog) : Prop :=
  ∃ env cl w, dropped (run env cl p w) ≠ dropped w.

(** What a route answers on success. *)
Definition success_status (r : route) : Z :=
  match r with
  | GET_root | GET_todos => 200
  | POST_root | POST_todos => 201
  end.

Definition body_of {T} (c : storageE T) : T → res_body :=
  match c in storageE T return T → res_body with
  | UserFindMany => BUsers
  | TodoFindMany => BTodos
  | UserCreate _ _ => BUser
  | TodoCreate _ _ _ => BTodo
  end.

(** The response of a REST route to a settled call. *)
Definition rest_response (rt : route) {T} (c : storageE T)
    (r : prisma_error + T) : outbound :=
  match r with
  | inr v => Http (success_status rt) (body_of c v)
  | inl _ => internal_server_error
  end.

(** ** [fetch] of [apps/ws/index.ts] and a WebSocket server session *)

(** What [fetch(req, server)] ends in: [undefined] after a successful
    [server.upgrade(req)], a plain-text [Response] otherwise. *)
Inductive fetch_result : Type :=
| Upgraded
| Refused (status : Z) (text : string).

(** [fetch]; [upgrade] is what [server.upgrade(req)] returned. *)
Definition fetch (upgrade : bool) : fetch_result :=
  if upgrade then Upgraded else Refused 500 "Upgrade failed".

(** What reaches the server on port 8081: an HTTP request, which
    [server.upgrade] accepts or not, or a frame on an open socket. *)
Inductive ws_inbound : Type :=
| WsRequest (upgradable : bool)
| WsFrame (msg : ws_data).

Record WsServer : Type := mkWsServer {
  ws_world : World;
  ws_fetched : list fetch_result;
}.

Definition ws_step (env : Env) (cl : PrismaClient) (s : WsServer)
    (i : ws_inbound) : WsServer :=
  match i with
  | WsRequest upgradable =>
      mkWsServer (ws_world s) (ws_fetched s ++ [fetch upgradable])
  | WsFrame msg =>
      mkWsServer (run env cl (message msg) (ws_world s)) (ws_fetched s)
  end.

Definition ws_serve (env : Env) (cl : PrismaClient) (inbound : list ws_inbound)
    (s : WsServer) : WsServer :=
  foldl (ws_step env cl) s inbound.

Definition is_frame (i : ws_inbound) : bool :=
  match i with WsFrame _ => true | WsRequest _ => false end.

(** ** Counting what the spy saw *)

Definition fulfilled {T} (r : prisma_error + T) : bool :=
  match r with inr _ => true | inl _ => false end.

(** The event is a [user.create] that was fulfilled. *)
Definition user_created (e : event) : bool :=
  match e with
  | Called c r =>
      match c with UserCreate _ _ => fulfilled r | _ => false end
  | _ => false
  end.

(** The event is a [todo.create] that was fulfilled. *)
Definition todo_created (e : event) : bool :=
  match e with
  | Called c r =>
      match c with TodoCreate _ _ _ => fulfilled r | _ => false end
  | _ => false
  end.

Definition count (f : event → bool) (evs : list event) : nat :=
  length (filter (λ e, f e = true) evs).

(** ** The call behind each route *)

(** The text of the 400 of a route (the [GET] routes have none). *)
Definition validation_message (rt : route) : string :=
  match rt with
  | POST_todos => "Task and userId are required"
  | _ => "Username and password are required"
  end.

(** The Prisma call a request leads to; [None] when the handler answers 400
    before making one. *)
Definition route_call (rt : route) (body : req_body) : option (sigT storageE) :=
  match rt with
  | GET_root => Some (existT _ UserFindMany)
  | GET_todos => Some (existT _ TodoFindMany)
  | POST_root =>
      if truthy (field "username" body) && truthy (field "password" body)
      then Some (existT _ (UserCreate (field "username" body)
                                      (field "password" body)))
      else None
  | POST_todos =>
      if truthy (field "task" body) && truthy (field "userId" body)
      then Some (existT _ (TodoCreate (field "task" body)
                                      (field "userId" body)
                                      (field "done" body)))
      else None
  end.

(** The number of rows in both tables. *)
Definition rows (d : DB) : nat := length (users d) + length (todos d).

(** ** [deploy.sh] *)

Module Deploy.

(** What the script cannot decide by itself: the exit status of each command
    it starts and which files exist in the working directory. *)
Record Host : Type := mkHost {
  exit_status : list string → nat;
  is_file : string → bool;
}.

(** What a run does, in order: [echo] (with or without [-e]) and the
    commands it starts. *)
Inductive event : Type :=
| Echo (escapes : bool) (arg : string)
| Exec (argv : list string).

(** A piece of the script under [set -e]: it adds to what happened so far and
    either goes on with a value or ends the script with an exit status. *)
Definition sh (A : Type) : Type := list event → list event * (nat + A).

#[global] Instance sh_ret : MRet sh := λ A a out, (out, inr a).

#[global] Instance sh_bind : MBind sh :=
  λ A B f m out,
    match m out with
    | (out', inl code) => (out', inl code)
    | (out', inr a) => f a out'
    end.

Definition echo (arg : string) : sh unit :=
  λ out, (out ++ [Echo false arg], inr ()).

Definition echo_e (arg : string) : sh unit :=
  λ out, (out ++ [Echo true arg], inr ()).

Definition exit {A} (code : nat) : sh A := λ out, (out, inl code).

(** A command as a statement: under [set -e] a status other than 0 ends the
    script with that status. *)
Definition command (h : Host) (argv : list string) : sh unit :=
  λ out,
    (out ++ [Exec argv],
     match exit_status h argv with O => inr () | code => inl code end).

(** A command as the condition of an [if]: its status is only tested. *)
Definition succeeds (h : Host) (argv : list string) : sh bool :=
  λ out, (out ++ [Exec argv], inr (bool_decide (exit_status h argv = O))).

(** An [if] without [else], when its condition is false. *)
Definition nothing : sh unit := mret ().

Definition RED : string := "\033[0;31m".
Definition GREEN : string := "\033[0;32m".
Definition YELLOW : string := "\033[1;33m".
Definition NC : string := "\033[0m".

Definition print_info (msg : string) : sh unit :=
  echo_e (GREEN +:+ "ℹ️  " +:+ msg +:+ NC).

Definition print_warning (msg : string) : sh unit :=
  echo_e (YELLOW +:+ "⚠️  " +:+ msg +:+ NC).

Definition print_error (msg : string) : sh unit :=
  echo_e (RED +:+ "❌ " +:+ msg +:+ NC).

(** [${n:-word}]: [word] when the parameter is unset or empty. *)
Definition parameter (value : option string) (word : string) : string :=
  match value with
  | Some s => if String.eqb s "" then word else s
  | None => word
  end.

Definition docker_info : list string := ["docker"; "info"].
Definition compose_prod_pull : list string :=
  ["docker"; "compose"; "-f"; "docker-compose.prod.yml"; "pull"].
Definition compose_prod_up : list string :=
  ["docker"; "compose"; "-f"; "docker-compose.prod.yml"; "up"; "-d"].
Definition compose_up_build : list string :=
  ["docker"; "compose"; "up"; "--build"; "-d"].
Definition compose_up : list string := ["docker"; "compose"; "up"; "-d"].
Definition sleep_5 : list string := ["sleep"; "5"].
Definition compose_ps : list string := ["docker"; "compose"; "ps"].

(** The script, top to bottom; [script] is [$0], [args] are [$1], [$2], ... *)
Definition deploy (h : Host) (script : string) (args : list string) : sh unit :=
  let ENV := parameter (args !! 0%nat) "dev" in
  let ACTION := parameter (args !! 1%nat) "pull" in
  echo_e (GREEN +:+ "🚀 Monorepo Deployment Script" +:+ NC);;
  echo "================================";;
  echo "";;
  succeeds h docker_info ≫= λ running : bool,
  (if running then nothing
   else
     print_error "Docker is not running. Please start Docker first.";;
     exit 1);;
  (if String.eqb ENV "prod" then
     print_info "Deploying to PRODUCTION using DockerHub images...";;
     (if is_file h "docker-compose.prod.yml" then nothing
      else print_error "docker-compose.prod.yml not found!";; exit 1);;
     (if String.eqb ACTION "pull" then
        print_info "Pulling latest images from DockerHub...";;
        command h compose_prod_pull
      else nothing);;
     print_info "Starting services...";;
     command h compose_prod_up
   else if String.eqb ENV "dev" then
     print_info "Deploying to DEVELOPMENT using local build...";;
     (if String.eqb ACTION "build" then
        print_info "Building images locally...";;
        command h compose_up_build
      else
        print_info "Starting services...";;
        command h compose_up)
   else
     print_error ("Invalid environment: " +:+ ENV);;
     echo ("Usage: " +:+ script +:+ " [dev|prod] [pull|build]");;
     exit 1);;
  print_info "Waiting for services to be ready...";;
  command h sleep_5;;
  print_info "Checking service status...";;
  command h compose_ps;;
  echo "";;
  print_info "Deployment complete! ✅";;
  echo "";;
  echo "Services available at:";;
  echo "  📊 Backend API:    http://localhost:8082";;
  echo "  🔌 WebSocket:      ws://localhost:8081";;
  echo "  🌐 Next.js Web:    http://localhost:3000";;
  echo "  🗄️  PostgreSQL:     localhost:5432";;
  echo "";;
  echo "Useful commands:";;
  echo "  View logs:         docker compose logs -f";;
  echo "  Stop services:     docker compose down";;
  echo "  Restart:           docker compose restart";;
  echo "".

(** Everything a run did. *)
Definition output (h : Host) (script : string) (args : list string)
  : list event :=
  (deploy h script args []).1.

(** The exit status of a run: that of [exit] or of the failed command, 0 when
    the last [echo] is reached. *)
Definition exit_code (h : Host) (script : string) (args : list string) : nat :=
  match (deploy h script args []).2 with
  | inl code => code
  | inr _ => O
  end.

(** The commands a run started, in order. *)
Definition commands (h : Host) (script : string) (args : list string)
  : list (list string) :=
  omap (λ e, match e with Exec argv => Some argv | Echo _ _ => None end)
       (output h script args).

(** The stage the arguments select, after the check that Docker runs:
    [None] when the script gives up before starting one. *)
Definition stage (h : Host) (args : list string) : option (list (list string)) :=
  let ENV := parameter (args !! 0%nat) "dev" in
  let ACTION := parameter (args !! 1%nat) "pull" in
  if String.eqb ENV "prod" then
    if is_file h "docker-compose.prod.yml" then
      Some (if String.eqb ACTION "pull"
            then [compose_prod_pull; compose_prod_up]
            else [compose_prod_up])
    else None
  else if String.eqb ENV "dev" then
    Some (if String.eqb ACTION "build" then [compose_up_build]
          else [compose_up])
  else None.

(** The commands of [plan] up to and including the first that fails. *)
Fixpoint until_failure (h : Host) (plan : list (list string))
  : list (list string) :=
  match plan with
  | [] => []
  | argv :: rest =>
      match exit_status h argv with
      | O => argv :: until_failure h rest
      | _ => [argv]
      end
  end.

(** The exit status a [set -e] run of [plan] ends with. *)
Fixpoint first_failure (h : Host) (plan : list (list string)) : nat :=
  match plan with
  | [] => O
  | argv :: rest =>
      match exit_status h argv with
      | O => first_failure h rest
      | code => code
      end
  end.

#[global] Instance event_eq_dec : EqDecision event.
Proof. solve_decision. Defined.

(** The line [print_info "Deployment complete! ✅"] prints. *)
Definition banner : event :=
  Echo true (GREEN +:+ "ℹ️  " +:+ "Deployment complete! ✅" +:+ NC).

(** The event is a line printed by [print_error]. *)
Definition is_error (e : event) : bool :=
  match e with
  | Echo true arg => String.prefix (RED +:+ "❌ ") arg
  | _ => false
  end.

(** A host on which Docker runs, both compose files are there and every
    command succeeds. *)
Definition ready : Host := mkHost (λ _, O) (λ _, true).

(** A host on which pulling the images fails with status 18. *)
Definition no_registry : Host :=
  mkHost (λ argv, if bool_decide (argv = compose_prod_pull) then 18%nat else O)
         (λ _, true).

(** A host on which the Docker daemon is not running. *)
Definition no_daemon : Host :=
  mkHost (λ argv, if bool_decide (argv = docker_info) then 1%nat else O)
         (λ _, true).

End Deploy.

(** ** Sample surroundings *)

Definition store_url : string := "postgres://app:secret@db:5432/app".

(** The store answers at [store_url]; no round-trip is cut short. *)
Definition healthy : Env :=
  mkEnv (String.eqb store_url) (λ _, None)
        (λ n, "id-" +:+ pretty n) (λ n, "0." +:+ pretty n).

(** The store answers, but the generator hands out the same id every time. *)
Definition stuck_generator : Env :=
  mkEnv (String.eqb store_url) (λ _, None) (λ _, "id-0") (λ n, "0." +:+ pretty n).

(** The store answers, but the first round-trip times out. *)
Definition slow_start : Env :=
  mkEnv (String.eqb store_url)
        (λ n, match n with O => Some Timeout | _ => None end)
        (λ n, "id-" +:+ pretty n) (λ n, "0." +:+ pretty n).

(** A client whose pool was given the address of the store. *)
Definition configured : PrismaClient :=
  mkPrismaClient (mkPrismaPg (mkPool store_url)).

(** The client built when [DATABASE_URL] is not set. *)
Definition unconfigured : PrismaClient :=
  mkPrismaClient (mkPrismaPg (mkPool "")).

Definition alice : req_body :=
  [("username", JStr "alice"); ("password", JStr "p1")].

Definition bob_without_password : req_body := [("username", JStr "bob")].

(** The three characters [a], U+0000, [b]. *)
Definition a_nul_b : string := "a" +:+ String Ascii.zero "b".

Definition nul_in_username : req_body :=
  [("username", JStr a_nul_b); ("password", JStr "p1")].

Definition nul_in_task : req_body :=
  [("task", JStr a_nul_b); ("userId", JStr "id-0")].

Definition alice_row : User.t := User.mk "id-0" "alice" "p1".

Definition one_user : DB := mkDB [alice_row] [].

(** [one_user] after the third end-to-end scenario. *)
Definition one_user_one_todo : DB :=
  mkDB [alice_row] [Todo.mk "id-1" "buy milk" false "id-0"].

(** Two users and three todos; the first and the last todo are alice's. *)
Definition shared_todos : DB :=
  mkDB [alice_row; User.mk "id-5" "bob" "p2"]
       [Todo.mk "id-1" "buy milk" false "id-0";
        Todo.mk "id-2" "walk" true "id-5";
        Todo.mk "id-3" "read" false "id-0"].

Definition buy_milk : req_body :=
  [("task", JStr "buy milk"); ("userId", JStr "id-0")].

Definition dangling_todo : req_body :=
  [("task", JStr "x"); ("userId", JStr "nonexistent")].

Definition todo_done_as_text : req_body :=
  [("task", JStr "x"); ("userId", JStr "id-0"); ("done", JStr "yes")].

(** * Properties *)

Section Store.

Implicit Types d : DB.

Lemma db_insert_user_inv u d d' :
  db_insert_user u d = inr d' →
  (User.id u ∉ user_ids d) ∧ users d' = users d ++ [u] ∧ todos d' = todos d.
Proof.
  unfold db_insert_user. destruct (_ || _); [done|].
  case_bool_decide; [done|]. intros [= <-]. done.
Qed.

Lemma db_insert_todo_inv id task done userId d d' :
  db_insert_todo id task done userId d = inr d' →
  (id ∉ todo_ids d) ∧ (userId ∈ user_ids d) ∧
  users d' = users d ∧
  todos d' = todos d ++ [todo_row id task done userId].
Proof.
  unfold db_insert_todo. destruct (_ || _); [done|].
  repeat case_bool_decide; try done. intros [= <-]. done.
Qed.

Lemma inserted_preserved d d' : inserted d d' → preserved d d'.
Proof.
  unfold preserved.
  destruct 1 as [d|u d d' H|id task done userId d d' H].
  - done.
  - apply db_insert_user_inv in H as (_ & -> & ->).
    split; [by apply prefix_app_r|done].
  - apply db_insert_todo_inv in H as (_ & _ & -> & ->).
    split; [done|by apply prefix_app_r].
Qed.

Lemma preserved_trans d1 d2 d3 :
  preserved d1 d2 → preserved d2 d3 → preserved d1 d3.
Proof. intros [??] [??]. split; by etrans. Qed.


Lemma query_inserted {T} env cl n (c : storageE T) d :
  inserted d (query env cl n c d).2.
Proof.
  destruct c as [| |username password|task userId done]; simpl.
  - destruct (round_trip env cl n); constructor.
  - destruct (round_trip env cl n); constructor.
  - destruct (as_string username), (as_string password);
      try constructor.
    destruct (round_trip env cl n); [constructor|].
    destruct (db_insert_user _ d) eqn:H; [constructor|].
    by eapply inserted_user.
  - destruct (as_string task), (as_string userId), (as_optional_bool done);
      try constructor.
    destruct (round_trip env cl n); [constructor|].
    destruct (db_insert_todo _ _ _ _ d) eqn:H; [constructor|].
    by eapply inserted_todo.
Qed.

Lemma query_rejected_unchanged {T} env cl n (c : storageE T) d e :
  (query env cl n c d).1 = inl e → (query env cl n c d).2 = d.
Proof.
  destruct c as [| |username password|task userId done]; simpl.
  - by destruct (round_trip env cl n).
  - by destruct (round_trip env cl n).
  - destruct (as_string username), (as_string password); try done.
    destruct (round_trip env cl n); [done|].
    by destruct (db_insert_user _ d).
  - destruct (as_string task), (as_string userId), (as_optional_bool done);
      try done.
    destruct (round_trip env cl n); [done|].
    by destruct (db_insert_todo _ _ _ _ d).
Qed.

End Store.

Section Integrity.

Implicit Types d : DB.

Lemma rename_user_id old new u :
  User.id (rename_user old new u) = swap_id old new (User.id u).
Proof. unfold rename_user, swap_id. by case_bool_decide. Qed.

Lemma retarget_todo_userId old new t :
  Todo.userId (retarget_todo old new t) = swap_id old new (Todo.userId t).
Proof. unfold retarget_todo, swap_id. by case_bool_decide. Qed.

Lemma retarget_todo_id old new t :
  Todo.id (retarget_todo old new t) = Todo.id t.
Proof. unfold retarget_todo. by case_bool_decide. Qed.

Lemma filtered_ids_NoDup {A} (key : A → string) (P : A → Prop)
    `{∀ x, Decision (P x)} (l : list A) :
  NoDup (key <$> l) → NoDup (key <$> filter P l).
Proof.
  intros Hl. eapply sublist_NoDup; [exact Hl|].
  apply fmap_sublist, sublist_filter.
Qed.

Lemma consistent_insert_user u d d' :
  db_insert_user u d = inr d' → consistent d → consistent d'.
Proof.
  intros (Hnew & Hu & Ht)%db_insert_user_inv (Hus & Hts & Hfk).
  unfold consistent, fk_ok, user_ids, todo_ids in *.
  rewrite Hu, Ht, fmap_app. split_and!.
  - apply list.NoDup_app. split_and!; [done| |apply NoDup_singleton].
    intros x Hx ->%list_elem_of_singleton. by apply Hnew.
  - done.
  - intros t Hin. apply elem_of_app. left. by apply Hfk.
Qed.

Lemma consistent_insert_todo id task done userId d d' :
  db_insert_todo id task done userId d = inr d' →
  consistent d → consistent d'.
Proof.
  intros (Hnew & Href & Hu & Ht)%db_insert_todo_inv (Hus & Hts & Hfk).
  unfold consistent, fk_ok, user_ids, todo_ids in *.
  rewrite Hu, Ht, fmap_app. split_and!.
  - done.
  - apply list.NoDup_app. split_and!; [done| |apply NoDup_singleton].
    intros x Hx ->%list_elem_of_singleton. by apply Hnew.
  - intros t [Hin| ->%list_elem_of_singleton]%elem_of_app.
    + by apply Hfk.
    + done.
Qed.

Lemma consistent_delete_user id d d' :
  db_delete_user id d = inr d' → consistent d → consistent d'.
Proof.
  unfold db_delete_user. case_bool_decide as Href; [done|].
  intros [= <-] (Hus & Hts & Hfk).
  unfold consistent, fk_ok, user_ids, todo_ids in *. simpl. split_and!.
  - by apply filtered_ids_NoDup.
  - done.
  - intros t Hin.
    pose proof (Hfk t Hin) as Href'.
    apply list_elem_of_fmap in Href' as (u & Hid & Hu).
    apply list_elem_of_fmap. exists u. split; [done|].
    apply list_elem_of_filter. split; [|done].
    intros Heq. apply Href. rewrite <- Heq, <- Hid.
    by apply list_elem_of_fmap_2.
Qed.

Lemma consistent_delete_todo id d d' :
  db_delete_todo id d = inr d' → consistent d → consistent d'.
Proof.
  unfold db_delete_todo. intros [= <-] (Hus & Hts & Hfk).
  unfold consistent, fk_ok, user_ids, todo_ids in *. simpl. split_and!.
  - done.
  - by apply filtered_ids_NoDup.
  - intros t [_ Hin]%list_elem_of_filter. by apply Hfk.
Qed.

Lemma rename_user_other old new u :
  User.id u ≠ old → rename_user old new u = u.
Proof. intros Hu. unfold rename_user. by rewrite bool_decide_eq_false_2. Qed.

Lemma retarget_todo_other old new t :
  Todo.userId t ≠ old → retarget_todo old new t = t.
Proof. intros Ht. unfold retarget_todo. by rewrite bool_decide_eq_false_2. Qed.

(** Rows left alone followed by rows rewritten: the table, with [f] applied,
    in another order. *)
Lemma rewritten_rows {A} (key : A → string) (f : A → A) old (l : list A) :
  (∀ x, key x ≠ old → f x = x) →
  filter (λ x, key x ≠ old) l ++ (f <$> filter (λ x, key x = old) l)
  ≡ₚ f <$> l.
Proof.
  intros Hf. induction l as [|x l IH]; [done|].
  rewrite !filter_cons.
  destruct (decide (key x ≠ old)) as [Hx|Hx],
    (decide (key x = old)) as [Hx'|Hx']; try done.
  - simpl. rewrite (Hf x Hx). by constructor.
  - rewrite fmap_cons, <- Permutation_middle. by constructor.
Qed.

(** An accepted [UPDATE] of a key leaves the tables alone, or rewrites the
    user and the rows that reference it. *)
Lemma db_update_user_id_inv old new d d' :
  db_update_user_id old new d = inr d' →
  d' = d
  ∨ (has_nul new = false
     ∧ (old ∈ user_ids d)
     ∧ (old = new ∨ new ∉ user_ids d)
     ∧ users d' ≡ₚ rename_user old new <$> users d
     ∧ todos d' ≡ₚ retarget_todo old new <$> todos d).
Proof.
  unfold db_update_user_id.
  destruct (has_nul old || has_nul new) eqn:Hnul; [done|].
  apply orb_false_iff in Hnul as [_ Hnew].
  case_bool_decide as Hold; [|intros [= <-]; by left].
  case_bool_decide as Hclash; [done|]. intros [= <-]. right.
  split; [done|]. split; [done|]. cbn [users todos]. split_and!.
  - destruct (decide (old = new)); [by left|right].
    intros Hin. apply Hclash. done.
  - apply rewritten_rows. intros u Hu. by apply rename_user_other.
  - case_bool_decide as Heq.
    + subst new. rewrite <- (list_fmap_id (todos d)) at 1.
      apply Permutation_refl'. apply list_fmap_ext.
      intros _ [id task done userId] _. unfold retarget_todo. simpl.
      by case_bool_decide; subst.
    + apply rewritten_rows. intros t Ht. by apply retarget_todo_other.
Qed.

Lemma consistent_update_user_id old new d d' :
  db_update_user_id old new d = inr d' → consistent d → consistent d'.
Proof.
  intros [->|(_ & Hold & Hnew & Husers & Htodos)]%db_update_user_id_inv;
    [done|].
  intros (Hus & Hts & Hfk).
  unfold consistent, fk_ok, user_ids, todo_ids in *.
  assert (Hids : User.id <$> users d'
                 ≡ₚ swap_id old new <$> (User.id <$> users d)).
  { rewrite Husers, <- !list_fmap_compose.
    apply Permutation_refl'. apply list_fmap_ext.
    intros _ u _. apply rename_user_id. }
  split_and!.
  - rewrite Hids. apply NoDup_fmap_2_strong; [|done].
    intros x y Hx Hy. unfold swap_id.
    destruct Hnew as [<-|Hnew]; repeat case_bool_decide; congruence.
  - rewrite Htodos, <- list_fmap_compose.
    erewrite list_fmap_ext; [exact Hts|].
    intros _ t _. apply retarget_todo_id.
  - intros t' Ht'. rewrite Htodos in Ht'.
    apply list_elem_of_fmap in Ht' as (t & -> & Hin).
    rewrite retarget_todo_userId, Hids.
    by apply list_elem_of_fmap_2, Hfk.
Qed.

Lemma consistent_apply o d d' :
  db_apply o d = inr d' → consistent d → consistent d'.
Proof.
  destruct o; simpl;
    eauto using consistent_insert_user, consistent_insert_todo,
      consistent_delete_user, consistent_delete_todo,
      consistent_update_user_id.
Qed.

Lemma reachable_consistent d : reachable d → consistent d.
Proof.
  induction 1 as [|o d d' _ IH Hstep].
  - unfold consistent, fk_ok. simpl. split_and!; try constructor.
    intros t Hin. by apply not_elem_of_nil in Hin.
  - by eapply consistent_apply.
Qed.

End Integrity.

Section Runs.

Context (env : Env) (cl : PrismaClient).

Implicit Types (p : Prog) (w : World).

Lemma run_await {T} (c : storageE T) k w :
  run env cl (Await c k) w =
  run env cl (k (query env cl (ncalls w) c (db w)).1)
    (mkWorld (query env cl (ncalls w) c (db w)).2 (S (ncalls w)) (nrand w)
       (trace w ++ [Called c (query env cl (ncalls w) c (db w)).1])).
Proof. simpl. by destruct (query env cl (ncalls w) c (db w)). Qed.

(** A handler that awaits one call and answers on both outcomes. *)
Lemma run_await_send {T} (c : storageE T) k (f : prisma_error + T → outbound) w :
  (∀ r, k r = Send (f r) Done) →
  run env cl (Await c k) w =
  mkWorld (query env cl (ncalls w) c (db w)).2 (S (ncalls w)) (nrand w)
    (trace w ++ [Called c (query env cl (ncalls w) c (db w)).1;
                 Sent (f (query env cl (ncalls w) c (db w)).1)]).
Proof.
  intros Hk. rewrite run_await, Hk. simpl. unfold log. simpl.
  by rewrite <- app_assoc.
Qed.

Lemma run_random k w :
  run env cl (Random k) w =
  run env cl (k (rand_at env (nrand w)))
    (mkWorld (db w) (ncalls w) (S (nrand w)) (trace w)).
Proof. done. Qed.

(** Whatever a program does, the tables change by accepted inserts only. *)
Lemma run_inserted p w : rtc inserted (db w) (db (run env cl p w)).
Proof.
  revert w. induction p as [|e|T c k IH|T c k IH|k IH|o k IH]; intros w.
  - done.
  - done.
  - rewrite run_await. eapply rtc_l; [|apply IH]. apply query_inserted.
  - apply (IH (log (Dropped c) w)).
  - apply (IH _ (mkWorld (db w) (ncalls w) (S (nrand w)) (trace w))).
  - apply (IH (log (Sent o) w)).
Qed.

Lemma run_preserved p w : preserved (db w) (db (run env cl p w)).
Proof.
  induction (run_inserted p w) as [|d1 d2 d3 H _ IH]; [done|].
  eapply preserved_trans; [|exact IH]. by apply inserted_preserved.
Qed.


Lemma serve_snoc ts t w :
  serve env cl (ts ++ [t]) w = run env cl (handle t) (serve env cl ts w).
Proof. unfold serve. by rewrite foldl_snoc. Qed.


Lemma serve_preserved ts w : preserved (db w) (db (serve env cl ts w)).
Proof.
  induction ts as [|t ts IH] using rev_ind; [done|].
  rewrite serve_snoc. eapply preserved_trans; [exact IH|].
  apply run_preserved.
Qed.

(** The four routes, run. *)
Lemma run_get_root w :
  run env cl get_root w =
  mkWorld (query env cl (ncalls w) UserFindMany (db w)).2
    (S (ncalls w)) (nrand w)
    (trace w ++
     [Called UserFindMany (query env cl (ncalls w) UserFindMany (db w)).1;
      Sent (rest_response GET_root UserFindMany
              (query env cl (ncalls w) UserFindMany (db w)).1)]).
Proof. apply run_await_send. by intros [e|v]. Qed.

Lemma run_get_todos w :
  run env cl get_todos w =
  mkWorld (query env cl (ncalls w) TodoFindMany (db w)).2
    (S (ncalls w)) (nrand w)
    (trace w ++
     [Called TodoFindMany (query env cl (ncalls w) TodoFindMany (db w)).1;
      Sent (rest_response GET_todos TodoFindMany
              (query env cl (ncalls w) TodoFindMany (db w)).1)]).
Proof. apply run_await_send. by intros [e|v]. Qed.

Lemma run_post_root_rejected body w :
  truthy (field "username" body) = false ∨
  truthy (field "password" body) = false →
  run env cl (post_root body) w =
  log (Sent (Http 400 (BError "Username and password are required"))) w.
Proof.
  unfold post_root. intros [-> | ->]; [done|].
  by rewrite orb_true_r.
Qed.

Lemma run_post_root_accepted body w :
  truthy (field "username" body) = true →
  truthy (field "password" body) = true →
  let c := UserCreate (field "username" body) (field "password" body) in
  run env cl (post_root body) w =
  mkWorld (query env cl (ncalls w) c (db w)).2 (S (ncalls w)) (nrand w)
    (trace w ++
     [Called c (query env cl (ncalls w) c (db w)).1;
      Sent (rest_response POST_root c (query env cl (ncalls w) c (db w)).1)]).
Proof.
  unfold post_root. intros -> ->. cbn [negb orb].
  apply run_await_send. by intros [e|v].
Qed.

Lemma run_post_todos_rejected body w :
  truthy (field "task" body) = false ∨
  truthy (field "userId" body) = false →
  run env cl (post_todos body) w =
  log (Sent (Http 400 (BError "Task and userId are required"))) w.
Proof.
  unfold post_todos. intros [-> | ->]; [done|].
  by rewrite orb_true_r.
Qed.

Lemma run_post_todos_accepted body w :
  truthy (field "task" body) = true →
  truthy (field "userId" body) = true →
  let c := TodoCreate (field "task" body) (field "userId" body)
             (field "done" body) in
  run env cl (post_todos body) w =
  mkWorld (query env cl (ncalls w) c (db w)).2 (S (ncalls w)) (nrand w)
    (trace w ++
     [Called c (query env cl (ncalls w) c (db w)).1;
      Sent (rest_response POST_todos c (query env cl (ncalls w) c (db w)).1)]).
Proof.
  unfold post_todos. intros -> ->. cbn [negb orb].
  apply run_await_send. by intros [e|v].
Qed.

(** The WebSocket handler, run. *)
Lemma run_message msg w :
  let c := UserCreate (Some (JStr (rand_at env (nrand w))))
                      (Some (JStr (rand_at env (S (nrand w))))) in
  run env cl (message msg) w =
  mkWorld (query env cl (ncalls w) c (db w)).2 (S (ncalls w))
    (S (S (nrand w)))
    (trace w ++
     [Called c (query env cl (ncalls w) c (db w)).1;
      Sent (WsSend match (query env cl (ncalls w) c (db w)).1 with
                   | inr _ => msg
                   | inl _ => Text "Error creating user"
                   end)]).
Proof.
  intros c. unfold message. rewrite !run_random.
  rewrite (run_await_send _ _
    (λ r, WsSend match r with inr _ => msg | inl _ => Text "Error creating user" end)).
  - done.
  - by intros [e|v].
Qed.

(** The page, run. *)
Lemma run_Home w :
  run env cl Home w =
  mkWorld (query env cl (ncalls w) UserFindMany (db w)).2
    (S (ncalls w)) (nrand w)
    (trace w ++
     [Called UserFindMany (query env cl (ncalls w) UserFindMany (db w)).1;
      match (query env cl (ncalls w) UserFindMany (db w)).1 with
      | inr users => Sent (Page users)
      | inl e => Uncaught e
      end]).
Proof.
  unfold Home. rewrite run_await.
  destruct (query env cl (ncalls w) UserFindMany (db w)) as [[e|v] d'];
    simpl; unfold log; simpl; by rewrite <- app_assoc.
Qed.

End Runs.

Section Spy.

Implicit Types (w : World).

Lemma calls_log_sent o w : calls (log (Sent o) w) = calls w.
Proof. unfold calls, log. simpl. rewrite omap_app. simpl. apply app_nil_r. Qed.

Lemma dropped_app_nil w evs :
  omap (λ e, match e with Dropped c => Some (existT _ c) | _ => None end) evs
    = [] →
  ∀ w', trace w' = trace w ++ evs → dropped w' = dropped w.
Proof.
  intros Hevs w' Hw'. unfold dropped. rewrite Hw', omap_app, Hevs.
  apply app_nil_r.
Qed.

End Spy.

(** * The REST adapter *)

(** C2. A [POST /] whose [username] or [password] is missing — or is any
    other value that [!] takes for absent: [null], [false], [0], the empty
    string — is answered with 400 and nothing else happens: no Prisma call is
    made (the spy sees none, the call counter stands still) and the tables are
    as before. *)
Theorem post_root_missing_field env cl body w :
  truthy (field "username" body) = false ∨
  truthy (field "password" body) = false →
  let w' := run env cl (post_root body) w in
  trace w' =
    trace w ++ [Sent (Http 400 (BError "Username and password are required"))]
  ∧ calls w' = calls w
  ∧ ncalls w' = ncalls w
  ∧ db w' = db w.
Proof.
  intros Hmissing. cbv zeta. rewrite run_post_root_rejected by done.
  split_and!; [done|apply calls_log_sent|done|done].
Qed.

Lemma post_root_missing_field_witness :
  (truthy (field "username" bob_without_password) = false ∨
   truthy (field "password" bob_without_password) = false)
  ∧ trace (run healthy configured (post_root bob_without_password)
             (boot one_user)) =
    [Sent (Http 400 (BError "Username and password are required"))]
  ∧ calls (run healthy configured (post_root bob_without_password)
             (boot one_user)) = []
  ∧ ncalls (run healthy configured (post_root bob_without_password)
             (boot one_user)) = 0%nat
  ∧ db (run healthy configured (post_root bob_without_password)
             (boot one_user)) = one_user.
Proof.
  split.
  - right. reflexivity.
  - apply (post_root_missing_field healthy configured bob_without_password
             (boot one_user)).
    right. reflexivity.
Defined.

(** C7. Every route either stops at its own validation (400, the two [POST]
    routes only) or awaits exactly one Prisma call and answers from its
    outcome alone: a rejection — whatever error it carries — gives 500 with
    the body [{error: 'Internal Server Error'}] and leaves the tables as they
    were; a fulfilment gives the record(s) as the body, with 200 on the [GET]
    routes and 201 on the [POST] routes. *)
Theorem rest_outcome_mapping env cl rt body w :
  let w' := run env cl (app rt body) w in
  (∃ msg, (rt = POST_root ∨ rt = POST_todos)
     ∧ trace w' = trace w ++ [Sent (Http 400 (BError msg))]
     ∧ db w' = db w)
  ∨ (∃ T (c : storageE T),
     let r := (query env cl (ncalls w) c (db w)).1 in
     trace w' =
       trace w ++
       [Called c r;
        Sent match r with
             | inl _ => Http 500 (BError "Internal Server Error")
             | inr v => Http (success_status rt) (body_of c v)
             end]
     ∧ match r with inl _ => db w' = db w | inr _ => True end).
Proof.
  cbv zeta.
  assert (Hfail : ∀ T (c : storageE T),
    match (query env cl (ncalls w) c (db w)).1 with
    | inl _ => (query env cl (ncalls w) c (db w)).2 = db w
    | inr _ => True
    end).
  { intros T c. destruct (query env cl (ncalls w) c (db w)).1 eqn:Hr; [|done].
    by eapply query_rejected_unchanged. }
  destruct rt; simpl app.
  - right. exists _, UserFindMany. rewrite run_get_root. split; [done|].
    apply Hfail.
  - right. exists _, TodoFindMany. rewrite run_get_todos. split; [done|].
    apply Hfail.
  - destruct (truthy (field "username" body)) eqn:Hu;
      [destruct (truthy (field "password" body)) eqn:Hp|].
    + right. eexists _, (UserCreate _ _).
      rewrite run_post_root_accepted by done. split; [done|]. apply Hfail.
    + left. eexists. rewrite run_post_root_rejected by auto. eauto.
    + left. eexists. rewrite run_post_root_rejected by auto. eauto.
  - destruct (truthy (field "task" body)) eqn:Hu;
      [destruct (truthy (field "userId" body)) eqn:Hp|].
    + right. eexists _, (TodoCreate _ _ _).
      rewrite run_post_todos_accepted by done. split; [done|]. apply Hfail.
    + left. eexists. rewrite run_post_todos_rejected by auto. eauto.
    + left. eexists. rewrite run_post_todos_rejected by auto. eauto.
Qed.

(** C10. Once [task] and [userId] are truthy, [POST /todos] awaits
    [todo.create] with the three members exactly as they came in the body —
    [done] included, whatever it is — and answers 201 with the created row or
    500, never 400. A [done] that is present and not a boolean makes the call
    reject, so it is answered with that same 500 and nothing is stored. *)
Theorem post_todos_done_unvalidated env cl body w :
  truthy (field "task" body) = true →
  truthy (field "userId" body) = true →
  let c := TodoCreate (field "task" body) (field "userId" body)
             (field "done" body) in
  let r := (query env cl (ncalls w) c (db w)).1 in
  let w' := run env cl (post_todos body) w in
  trace w' =
    trace w ++
    [Called c r;
     Sent match r with
          | inr todo => Http 201 (BTodo todo)
          | inl _ => Http 500 (BError "Internal Server Error")
          end]
  ∧ (as_optional_bool (field "done" body) = None →
     r = inl EValidation ∧ db w' = db w).
Proof.
  intros Htask Huser. cbv zeta.
  rewrite run_post_todos_accepted by done. split.
  - reflexivity.
  - intros Hdone. simpl. rewrite Hdone.
    by destruct (as_string (field "task" body)),
      (as_string (field "userId" body)).
Qed.

Lemma post_todos_done_unvalidated_witness :
  truthy (field "task" todo_done_as_text) = true
  ∧ truthy (field "userId" todo_done_as_text) = true
  ∧ as_optional_bool (field "done" todo_done_as_text) = None
  ∧ trace (run healthy configured (post_todos todo_done_as_text)
             (boot one_user)) =
    [Called (TodoCreate (Some (JStr "x")) (Some (JStr "id-0"))
               (Some (JStr "yes"))) (inl EValidation);
     Sent (Http 500 (BError "Internal Server Error"))]
  ∧ db (run healthy configured (post_todos todo_done_as_text)
          (boot one_user)) = one_user.
Proof.
  split; [reflexivity|]. split; [reflexivity|]. split; [reflexivity|].
  pose proof (post_todos_done_unvalidated healthy configured
                todo_done_as_text (boot one_user) eq_refl eq_refl)
    as [Htrace Hwrong].
  split.
  - exact Htrace.
  - exact (proj2 (Hwrong eq_refl)).
Defined.

Section Creates.

Context (env : Env) (cl : PrismaClient).

Lemma truthy_nonempty s : s ≠ "" → truthy (Some (JStr s)) = true.
Proof. intros Hs. simpl. by apply negb_true_iff, String.eqb_neq. Qed.

(** [user.create] on two strings, step by step. *)
Lemma query_user_create n u p d :
  query env cl n (UserCreate (Some (JStr u)) (Some (JStr p))) d =
  match round_trip env cl n with
  | Some f => (inl (EFault f), d)
  | None =>
      if has_nul (id_at env n) || has_nul u || has_nul p
      then (inl (EConstraint InvalidByteSequence), d)
      else if bool_decide (id_at env n ∈ user_ids d)
      then (inl (EConstraint (UniqueViolation "User_pkey")), d)
      else (inr (User.mk (id_at env n) u p),
            mkDB (users d ++ [User.mk (id_at env n) u p]) (todos d))
  end.
Proof.
  simpl. destruct (round_trip env cl n); [done|].
  unfold db_insert_user. simpl. destruct (_ || _); [done|].
  by case_bool_decide.
Qed.

(** [todo.create] on two strings and a well-typed [done], step by step. *)
Lemma query_todo_create n t u done dn d :
  as_optional_bool done = Some dn →
  query env cl n (TodoCreate (Some (JStr t)) (Some (JStr u)) done) d =
  match round_trip env cl n with
  | Some f => (inl (EFault f), d)
  | None =>
      if has_nul (id_at env n) || has_nul t || has_nul u
      then (inl (EConstraint InvalidByteSequence), d)
      else if bool_decide (id_at env n ∈ todo_ids d)
      then (inl (EConstraint (UniqueViolation "Todo_pkey")), d)
      else if bool_decide (u ∈ user_ids d)
      then (inr (todo_row (id_at env n) t dn u),
            mkDB (users d) (todos d ++ [todo_row (id_at env n) t dn u]))
      else (inl (EConstraint (ForeignKeyViolation "Todo_userId_fkey")), d)
  end.
Proof.
  intros Hdone. simpl. rewrite Hdone.
  destruct (round_trip env cl n); [done|].
  unfold db_insert_todo. destruct (_ || _); [done|].
  by repeat case_bool_decide.
Qed.

Lemma no_nul_3 a b c :
  has_nul a || has_nul b || has_nul c = false ↔
  has_nul a = false ∧ has_nul b = false ∧ has_nul c = false.
Proof. rewrite !orb_false_iff. tauto. Qed.

Lemma inserted_user_ids_NoDup d d' :
  inserted d d' → NoDup (user_ids d) → NoDup (user_ids d').
Proof.
  destruct 1 as [d|u d d' H|id task done userId d d' H]; intros Hd.
  - done.
  - apply db_insert_user_inv in H as (Hnew & Hu & _).
    unfold user_ids in *. rewrite Hu, fmap_app.
    apply list.NoDup_app. split_and!; [done| |apply NoDup_singleton].
    intros x Hx ->%list_elem_of_singleton. by apply Hnew.
  - apply db_insert_todo_inv in H as (_ & _ & Hu & _).
    unfold user_ids in *. by rewrite Hu.
Qed.

Lemma run_user_ids_NoDup p w :
  NoDup (user_ids (db w)) → NoDup (user_ids (db (run env cl p w))).
Proof.
  induction (run_inserted env cl p w) as [|d1 d2 d3 H _ IH]; [done|].
  intros Hd. by apply IH, (inserted_user_ids_NoDup d1).
Qed.

Lemma serve_user_ids_NoDup ts w :
  NoDup (user_ids (db w)) → NoDup (user_ids (db (serve env cl ts w))).
Proof.
  intros Hw. induction ts as [|t ts IH] using rev_ind; [done|].
  rewrite serve_snoc. by apply run_user_ids_NoDup.
Qed.

End Creates.

(** C1 does not hold as stated: the request of the first end-to-end scenario,
    sent while the first round-trip to the store times out, is answered with
    500 and no row is stored. *)
Lemma post_root_always_201_counterexample :
  field "username" alice = Some (JStr "alice")
  ∧ field "password" alice = Some (JStr "p1")
  ∧ trace (run slow_start configured (post_root alice) (boot empty_db)) =
    [Called (UserCreate (Some (JStr "alice")) (Some (JStr "p1")))
       (inl (EFault Timeout));
     Sent (Http 500 (BError "Internal Server Error"))]
  ∧ db (run slow_start configured (post_root alice) (boot empty_db))
    = empty_db.
Proof. by vm_compute. Qed.

(** A generator that repeats itself cannot produce two rows with one id: the
    second insert runs into [User_pkey] and is answered with 500. *)
Example repeated_id_is_refused :
  trace (run stuck_generator configured (post_root alice) (boot one_user)) =
    [Called (UserCreate (Some (JStr "alice")) (Some (JStr "p1")))
       (inl (EConstraint (UniqueViolation "User_pkey")));
     Sent (Http 500 (BError "Internal Server Error"))]
  ∧ db (run stuck_generator configured (post_root alice) (boot one_user))
    = one_user.
Proof. by vm_compute. Qed.

(** A text with U+0000 passes the handler's check and the client's, and is
    refused by the store: 500, nothing stored. *)
Example nul_in_username_is_refused :
  trace (run healthy configured (post_root nul_in_username) (boot empty_db)) =
    [Called (UserCreate (Some (JStr a_nul_b)) (Some (JStr "p1")))
       (inl (EConstraint InvalidByteSequence));
     Sent (Http 500 (BError "Internal Server Error"))]
  ∧ db (run healthy configured (post_root nul_in_username) (boot empty_db))
    = empty_db.
Proof. by vm_compute. Qed.

(** C1, amended. A [POST /] whose [username] and [password] are non-empty
    strings awaits exactly one [user.create] with those two values. If the
    call is fulfilled, the answer is 201 with the created row: its [username]
    and [password] are the inputs, its [id] is the id of no row stored before,
    and it is appended to the [User] table. If the call is rejected, the
    answer is 500 and the tables are as before. The call is fulfilled
    whenever the round-trip goes through, the generated id is not yet a key
    and neither it nor the two inputs hold U+0000; an input that holds U+0000
    is never stored. However many triggers the services handle, the ids in
    the [User] table stay pairwise distinct, so no two calls ever return the
    same id. *)
Theorem post_root_creates_user env cl :
  (∀ body w u p,
     field "username" body = Some (JStr u) → u ≠ "" →
     field "password" body = Some (JStr p) → p ≠ "" →
     let c := UserCreate (Some (JStr u)) (Some (JStr p)) in
     let r := (query env cl (ncalls w) c (db w)).1 in
     let w' := run env cl (post_root body) w in
     trace w' =
       trace w ++
       [Called c r;
        Sent match r with
             | inr user => Http 201 (BUser user)
             | inl _ => Http 500 (BError "Internal Server Error")
             end]
     ∧ match r with
       | inr user =>
           User.username user = u ∧ User.password user = p
           ∧ (User.id user ∉ user_ids (db w))
           ∧ users (db w') = users (db w) ++ [user]
           ∧ todos (db w') = todos (db w)
           ∧ has_nul u = false ∧ has_nul p = false
       | inl _ => db w' = db w
       end
     ∧ (round_trip env cl (ncalls w) = None →
        id_at env (ncalls w) ∉ user_ids (db w) →
        has_nul (id_at env (ncalls w)) = false →
        has_nul u = false → has_nul p = false →
        r = inr (User.mk (id_at env (ncalls w)) u p)))
  ∧ (∀ ts w,
       NoDup (user_ids (db w)) →
       NoDup (user_ids (db (serve env cl ts w)))).
Proof.
  split; [|apply serve_user_ids_NoDup].
  intros body w u p Hu Hu' Hp Hp'. cbv zeta.
  rewrite run_post_root_accepted
    by (rewrite ?Hu, ?Hp; by apply truthy_nonempty).
  rewrite Hu, Hp. split; [reflexivity|].
  cbn [db]. rewrite query_user_create.
  destruct (round_trip env cl (ncalls w)) as [f|]; [by split|].
  destruct (has_nul _ || has_nul u || has_nul p) eqn:Hnul.
  { split; [done|]. intros _ _ Hi Hu'' Hp''.
    by rewrite Hi, Hu'', Hp'' in Hnul. }
  apply no_nul_3 in Hnul as (Hni & Hnu & Hnp).
  case_bool_decide as Hid; [by split|].
  cbn [fst snd]. by split_and!.
Qed.

Lemma post_root_creates_user_witness :
  field "username" alice = Some (JStr "alice") ∧ "alice" ≠ ""
  ∧ field "password" alice = Some (JStr "p1") ∧ "p1" ≠ ""
  ∧ trace (run healthy configured (post_root alice) (boot empty_db)) =
    [Called (UserCreate (Some (JStr "alice")) (Some (JStr "p1")))
       (inr alice_row);
     Sent (Http 201 (BUser alice_row))]
  ∧ round_trip healthy configured 0 = None
  ∧ (id_at healthy 0 ∉ user_ids empty_db)
  ∧ has_nul (id_at healthy 0) = false
  ∧ has_nul "alice" = false ∧ has_nul "p1" = false
  ∧ (query healthy configured 0
       (UserCreate (Some (JStr "alice")) (Some (JStr "p1"))) empty_db).1
    = inr alice_row
  ∧ NoDup (user_ids (db (boot empty_db)))
  ∧ NoDup (user_ids (db (serve healthy configured
                           [HttpRequest POST_root alice; WsMessage (Text "hi");
                            HttpRequest POST_root alice]
                           (boot empty_db)))).
Proof.
  assert (Hfresh : id_at healthy 0 ∉ user_ids empty_db).
  { intros Hin. by apply not_elem_of_nil in Hin. }
  split; [reflexivity|]. split; [discriminate|].
  split; [reflexivity|]. split; [discriminate|].
  split; [|split; [reflexivity|split; [exact Hfresh|]]].
  - apply (proj1 (post_root_creates_user healthy configured) alice
             (boot empty_db) "alice" "p1");
      [reflexivity|discriminate|reflexivity|discriminate].
  - split; [reflexivity|]. split; [reflexivity|]. split; [reflexivity|].
    split; [|split; [apply NoDup_nil_2|]].
    + apply (proj1 (post_root_creates_user healthy configured) alice
               (boot empty_db) "alice" "p1");
        [reflexivity|discriminate|reflexivity|discriminate|reflexivity
        |exact Hfresh|reflexivity|reflexivity|reflexivity].
    + apply (proj2 (post_root_creates_user healthy configured)).
      apply NoDup_nil_2.
Defined.

(** C3 does not hold as stated: the request of the fourth end-to-end
    scenario has a non-empty [task] and [userId] and no [done], and is
    answered with 500; no [Todo] row is stored. *)
Lemma post_todos_always_201_counterexample :
  field "task" dangling_todo = Some (JStr "x")
  ∧ field "userId" dangling_todo = Some (JStr "nonexistent")
  ∧ field "done" dangling_todo = None
  ∧ trace (run healthy configured (post_todos dangling_todo) (boot one_user)) =
    [Called (TodoCreate (Some (JStr "x")) (Some (JStr "nonexistent")) None)
       (inl (EConstraint (ForeignKeyViolation "Todo_userId_fkey")));
     Sent (Http 500 (BError "Internal Server Error"))]
  ∧ db (run healthy configured (post_todos dangling_todo) (boot one_user))
    = one_user.
Proof. by vm_compute. Qed.

(** A [task] with U+0000 is refused by the store even though its [userId]
    is the id of a stored [User]: 500, nothing stored. *)
Example nul_in_task_is_refused :
  trace (run healthy configured (post_todos nul_in_task) (boot one_user)) =
    [Called (TodoCreate (Some (JStr a_nul_b)) (Some (JStr "id-0")) None)
       (inl (EConstraint InvalidByteSequence));
     Sent (Http 500 (BError "Internal Server Error"))]
  ∧ db (run healthy configured (post_todos nul_in_task) (boot one_user))
    = one_user.
Proof. by vm_compute. Qed.

(** C3, amended. A [POST /todos] whose [task] and [userId] are non-empty
    strings and whose [done] is left out awaits exactly one [todo.create]. If
    the call is fulfilled — which needs [userId] to be the id of a stored
    [User] — the answer is 201 with the created row, whose [done] is [false]
    and whose [task] and [userId] are the inputs, and the row is appended to
    the [Todo] table. If the call is rejected, the answer is 500 and the
    tables are as before. The call is fulfilled whenever the round-trip goes
    through, the generated id is not yet a key, [userId] is the id of a
    stored [User] and neither the id nor the two inputs hold U+0000; an input
    that holds U+0000 is never stored. A request whose [task] or [userId] is
    missing (or falsy) is answered with 400 and makes no call. *)
Theorem post_todos_default_done env cl body w :
  (∀ t u,
     field "task" body = Some (JStr t) → t ≠ "" →
     field "userId" body = Some (JStr u) → u ≠ "" →
     field "done" body = None →
     let c := TodoCreate (Some (JStr t)) (Some (JStr u)) None in
     let r := (query env cl (ncalls w) c (db w)).1 in
     let w' := run env cl (post_todos body) w in
     trace w' =
       trace w ++
       [Called c r;
        Sent match r with
             | inr todo => Http 201 (BTodo todo)
             | inl _ => Http 500 (BError "Internal Server Error")
             end]
     ∧ match r with
       | inr todo =>
           Todo.done todo = false
           ∧ Todo.task todo = t ∧ Todo.userId todo = u
           ∧ (u ∈ user_ids (db w))
           ∧ todos (db w') = todos (db w) ++ [todo]
           ∧ users (db w') = users (db w)
           ∧ has_nul t = false ∧ has_nul u = false
       | inl _ => db w' = db w
       end
     ∧ (round_trip env cl (ncalls w) = None →
        id_at env (ncalls w) ∉ todo_ids (db w) →
        u ∈ user_ids (db w) →
        has_nul (id_at env (ncalls w)) = false →
        has_nul t = false → has_nul u = false →
        r = inr (Todo.mk (id_at env (ncalls w)) t false u)))
  ∧ (truthy (field "task" body) = false ∨
     truthy (field "userId" body) = false →
     let w' := run env cl (post_todos body) w in
     trace w' =
       trace w ++ [Sent (Http 400 (BError "Task and userId are required"))]
     ∧ calls w' = calls w
     ∧ db w' = db w).
Proof.
  split.
  - intros t u Ht Ht' Hu Hu' Hdone. cbv zeta.
    rewrite run_post_todos_accepted
      by (rewrite ?Ht, ?Hu; by apply truthy_nonempty).
    rewrite Ht, Hu, Hdone. split; [reflexivity|].
    cbn [db]. rewrite (query_todo_create env cl _ _ _ None None) by done.
    destruct (round_trip env cl (ncalls w)) as [f|]; [by split|].
    destruct (has_nul _ || has_nul t || has_nul u) eqn:Hnul.
    { split; [done|]. intros _ _ _ Hi Ht'' Hu''.
      by rewrite Hi, Ht'', Hu'' in Hnul. }
    apply no_nul_3 in Hnul as (Hni & Hnt & Hnu).
    case_bool_decide as Hid; [by split|].
    case_bool_decide as Href; [|by split].
    cbn [fst snd]. by split_and!.
  - intros Hmissing. cbv zeta. rewrite run_post_todos_rejected by done.
    split_and!; [done|apply calls_log_sent|done].
Qed.

Lemma post_todos_default_done_witness :
  field "task" buy_milk = Some (JStr "buy milk") ∧ "buy milk" ≠ ""
  ∧ field "userId" buy_milk = Some (JStr "id-0") ∧ "id-0" ≠ ""
  ∧ field "done" buy_milk = None
  ∧ trace (run healthy configured (post_todos buy_milk) (boot one_user)) =
    [Called (TodoCreate (Some (JStr "buy milk")) (Some (JStr "id-0")) None)
       (inr (Todo.mk "id-0" "buy milk" false "id-0"));
     Sent (Http 201 (BTodo (Todo.mk "id-0" "buy milk" false "id-0")))]
  ∧ round_trip healthy configured 0 = None
  ∧ (id_at healthy 0 ∉ todo_ids one_user)
  ∧ ("id-0" ∈ user_ids one_user)
  ∧ has_nul (id_at healthy 0) = false
  ∧ has_nul "buy milk" = false ∧ has_nul "id-0" = false
  ∧ (query healthy configured 0
       (TodoCreate (Some (JStr "buy milk")) (Some (JStr "id-0")) None)
       one_user).1
    = inr (Todo.mk "id-0" "buy milk" false "id-0")
  ∧ (truthy (field "task" bob_without_password) = false ∨
     truthy (field "userId" bob_without_password) = false)
  ∧ trace (run healthy configured (post_todos bob_without_password)
             (boot one_user)) =
    [Sent (Http 400 (BError "Task and userId are required"))].
Proof.
  assert (Hfresh : id_at healthy 0 ∉ todo_ids one_user).
  { intros Hin. by apply not_elem_of_nil in Hin. }
  assert (Href : "id-0" ∈ user_ids one_user).
  { apply list_elem_of_singleton. reflexivity. }
  split; [reflexivity|]. split; [discriminate|].
  split; [reflexivity|]. split; [discriminate|].
  split; [reflexivity|]. split.
  { apply (proj1 (post_todos_default_done healthy configured buy_milk
                    (boot one_user)) "buy milk" "id-0");
      [reflexivity|discriminate|reflexivity|discriminate|reflexivity]. }
  split; [reflexivity|]. split; [exact Hfresh|]. split; [exact Href|].
  split; [reflexivity|]. split; [reflexivity|]. split; [reflexivity|].
  split.
  { apply (proj1 (post_todos_default_done healthy configured buy_milk
                    (boot one_user)) "buy milk" "id-0");
      [reflexivity|discriminate|reflexivity|discriminate|reflexivity
      |reflexivity|exact Hfresh|exact Href
      |reflexivity|reflexivity|reflexivity]. }
  split; [left; reflexivity|].
  apply (proj2 (post_todos_default_done healthy configured
                  bob_without_password (boot one_user))).
  left. reflexivity.
Defined.

(** * The WebSocket adapter *)

(** C5. For every inbound message the handler draws two random strings and
    awaits exactly one [user.create] with them. If the call is fulfilled, the
    one frame sent is the inbound message itself, and the created row — with
    an id no stored row had — is appended to the [User] table. If the call is
    rejected, the one frame sent is the text ["Error creating user"], the
    message is not sent back, and the tables are as before. *)
Theorem ws_message_creates_then_echoes env cl msg w :
  let c := UserCreate (Some (JStr (rand_at env (nrand w))))
                      (Some (JStr (rand_at env (S (nrand w))))) in
  let r := (query env cl (ncalls w) c (db w)).1 in
  let w' := run env cl (message msg) w in
  trace w' =
    trace w ++
    [Called c r;
     Sent (WsSend match r with
                  | inr _ => msg
                  | inl _ => Text "Error creating user"
                  end)]
  ∧ calls w' = calls w ++ [existT _ c]
  ∧ ncalls w' = S (ncalls w)
  ∧ match r with
    | inr user =>
        users (db w') = users (db w) ++ [user]
        ∧ todos (db w') = todos (db w)
        ∧ (User.id user ∉ user_ids (db w))
        ∧ User.username user = rand_at env (nrand w)
        ∧ User.password user = rand_at env (S (nrand w))
    | inl _ => db w' = db w
    end.
Proof.
  cbv zeta. rewrite run_message. split; [reflexivity|].
  split; [|split; [reflexivity|]].
  - unfold calls. cbn [trace]. rewrite omap_app. reflexivity.
  - cbn [db]. rewrite query_user_create.
    destruct (round_trip env cl (ncalls w)) as [f|]; [done|].
    destruct (_ || _); [done|].
    case_bool_decide as Hid; [done|].
    cbn [fst snd]. by split_and!.
Qed.

(** * The storage constraints *)

Section References.

Context (env : Env) (cl : PrismaClient).



End References.



(** * The pool and the client *)

(** C6. Evaluating [packages/db/index.ts] always ends with a client, whatever
    [DATABASE_URL] holds: nothing is checked and nothing is thrown; an unset
    (or empty) variable gives a pool whose connection string is empty. If
    that connection string does not lead to the store, the tables are out of
    reach and the misconfiguration shows only when a call is awaited: every
    call that gets to the pool is rejected as [Unreachable], which [GET /]
    turns into the usual 500, the WebSocket handler into
    ["Error creating user"], and the page into a failed render. *)
Theorem startup_does_not_fail_fast DATABASE_URL :
  ∃ cl,
    prismaClient DATABASE_URL = inr cl
    ∧ client_url cl = connectionString DATABASE_URL
    ∧ (DATABASE_URL = None ∨ DATABASE_URL = Some "" → client_url cl = "")
    ∧ ∀ env,
        connects env (client_url cl) = false →
        (∀ T (c : storageE T) n d,
           (query env cl n c d).2 = d
           ∧ ((query env cl n c d).1 = inl (EFault Unreachable)
              ∨ (query env cl n c d).1 = inl EValidation))
        ∧ (∀ w, trace (run env cl get_root w) =
                trace w ++
                [Called UserFindMany (inl (EFault Unreachable));
                 Sent (Http 500 (BError "Internal Server Error"))])
        ∧ (∀ msg w, sent (run env cl (message msg) w) =
                    sent w ++ [WsSend (Text "Error creating user")])
        ∧ (∀ w, trace (run env cl Home w) =
                trace w ++
                [Called UserFindMany (inl (EFault Unreachable));
                 Uncaught (EFault Unreachable)]).
Proof.
  eexists. split; [reflexivity|]. split; [reflexivity|]. split.
  { by intros [-> | ->]. }
  intros env Hdown.
  assert (Hrt : ∀ n, round_trip env
                  (mkPrismaClient
                     (mkPrismaPg (mkPool (connectionString DATABASE_URL)))) n
                = Some Unreachable).
  { intros n. unfold round_trip. by rewrite Hdown. }
  split_and!.
  - intros T c n d.
    destruct c as [| |username password|task userId done]; simpl;
      rewrite ?Hrt; auto.
    + destruct (as_string username), (as_string password); rewrite ?Hrt; auto.
    + destruct (as_string task), (as_string userId), (as_optional_bool done);
        rewrite ?Hrt; auto.
  - intros w. rewrite run_get_root. simpl. by rewrite Hrt.
  - intros msg w. rewrite run_message. rewrite query_user_create, Hrt.
    unfold sent. cbn [trace fst]. by rewrite omap_app.
  - intros w. rewrite run_Home. simpl. by rewrite Hrt.
Qed.

Lemma startup_does_not_fail_fast_witness :
  prismaClient None = inr unconfigured
  ∧ connects healthy (client_url unconfigured) = false
  ∧ trace (run healthy unconfigured get_root (boot one_user)) =
    [Called UserFindMany (inl (EFault Unreachable));
     Sent (Http 500 (BError "Internal Server Error"))].
Proof.
  destruct (startup_does_not_fail_fast None)
    as (cl & Hcl & Hurl & _ & Hfirst).
  injection Hcl as <-.
  split; [reflexivity|]. split; [reflexivity|].
  apply (Hfirst healthy eq_refl).
Defined.

(** * All handlers together *)

Section Handlers.

Context (env : Env) (cl : PrismaClient).

(** Every handler produces one of the three shapes of [awaited_shape]. *)
Lemma handle_shape t w :
  ∃ evs, trace (run env cl (handle t) w) = trace w ++ evs ∧ awaited_shape evs.
Proof.
  destruct t as [rt body|msg|]; simpl handle.
  - destruct rt; simpl app.
    + rewrite run_get_root. eexists. split; [done|constructor].
    + rewrite run_get_todos. eexists. split; [done|constructor].
    + destruct (truthy (field "username" body)) eqn:Hu;
        [destruct (truthy (field "password" body)) eqn:Hp|].
      * rewrite run_post_root_accepted by done.
        eexists. split; [done|constructor].
      * rewrite run_post_root_rejected by auto.
        eexists. split; [done|constructor].
      * rewrite run_post_root_rejected by auto.
        eexists. split; [done|constructor].
    + destruct (truthy (field "task" body)) eqn:Hu;
        [destruct (truthy (field "userId" body)) eqn:Hp|].
      * rewrite run_post_todos_accepted by done.
        eexists. split; [done|constructor].
      * rewrite run_post_todos_rejected by auto.
        eexists. split; [done|constructor].
      * rewrite run_post_todos_rejected by auto.
        eexists. split; [done|constructor].
  - rewrite run_message. eexists. split; [done|constructor].
  - rewrite run_Home. eexists. split; [done|].
    destruct (query env cl (ncalls w) UserFindMany (db w)).1; constructor.
Qed.

Lemma awaited_shape_no_drop evs :
  awaited_shape evs →
  omap (λ e, match e with Dropped c => Some (existT _ c) | _ => None end) evs
    = [].
Proof. by destruct 1. Qed.

Lemma handle_no_drop t w :
  dropped (run env cl (handle t) w) = dropped w.
Proof.
  destruct (handle_shape t w) as (evs & Htrace & Hshape).
  eapply dropped_app_nil; [|exact Htrace].
  by apply awaited_shape_no_drop.
Qed.

Lemma query_find_users n d :
  (query env cl n UserFindMany d).2 = d
  ∧ ∀ rows, (query env cl n UserFindMany d).1 = inr rows → rows = users d.
Proof.
  simpl. destruct (round_trip env cl n); split; try done.
  by intros rows [= <-].
Qed.

End Handlers.

(** C8. Handling a trigger — a request on any of the four routes, a
    WebSocket message, a page render — changes the tables by accepted
    [INSERT]s only: the rows stored before are all still there afterwards,
    unchanged and in the same place, and the same holds after any sequence of
    triggers. [user.findMany] leaves the tables alone, so two calls with no
    write in between that both return, return the same rows. *)
Theorem handlers_only_read_or_insert env cl :
  (∀ t w, rtc inserted (db w) (db (run env cl (handle t) w)))
  ∧ (∀ t w,
       users (db w) `prefix_of` users (db (run env cl (handle t) w))
       ∧ todos (db w) `prefix_of` todos (db (run env cl (handle t) w)))
  ∧ (∀ ts w, preserved (db w) (db (serve env cl ts w)))
  ∧ (∀ n m d,
       let first := query env cl n UserFindMany d in
       let second := query env cl m UserFindMany first.2 in
       first.2 = d ∧ second.2 = d
       ∧ ∀ rows rows',
           first.1 = inr rows → second.1 = inr rows' → rows = rows').
Proof.
  split_and!.
  - intros t w. apply run_inserted.
  - intros t w. apply run_preserved.
  - intros ts w. apply serve_preserved.
  - intros n m d. cbv zeta.
    destruct (query_find_users env cl n d) as [Hd Hrows].
    rewrite Hd.
    destruct (query_find_users env cl m d) as [Hd' Hrows'].
    split_and!; [done|done|].
    intros rows rows' H1 H2.
    by rewrite (Hrows rows H1), (Hrows' rows' H2).
Qed.

Lemma handlers_only_read_or_insert_witness :
  (query healthy configured 0 UserFindMany one_user).1 = inr [alice_row]
  ∧ (query healthy configured 1 UserFindMany
       (query healthy configured 0 UserFindMany one_user).2).1
    = inr [alice_row]
  ∧ [alice_row] = [alice_row]
  ∧ users one_user `prefix_of`
    users (db (run healthy configured (handle (HttpRequest POST_root alice))
                 (boot one_user))).
Proof.
  destruct (handlers_only_read_or_insert healthy configured)
    as (_ & Hrows & _ & Hsame).
  split; [reflexivity|]. split; [reflexivity|]. split.
  - apply (Hsame 0%nat 1%nat one_user); reflexivity.
  - apply (Hrows (HttpRequest POST_root alice) (boot one_user)).
Defined.

(** C9 does not hold of the handlers in the source: none of them lets go of
    a storage call. *)
Lemma no_unawaited_handler_counterexample : ¬ ∃ t, unawaited (handle t).
Proof.
  intros (t & env & cl & w & Hdrop). apply Hdrop, handle_no_drop.
Qed.

(** C9, amended. Every handler in the source awaits its storage call: what a
    trigger causes is either a response with no call before it (the 400 of
    the two [POST] routes), or a call that has settled followed by the
    response, or — for the page — a call that has settled followed by the
    rejection of the render; no promise is ever dropped. The handler without
    [await] exists only as the mistake described in the troubleshooting
    notes; that one does drop its promise, and then no row is written and no
    call reaches the client. *)
Theorem handlers_await_their_call :
  (∀ t env cl w,
     ∃ evs, trace (run env cl (handle t) w) = trace w ++ evs
            ∧ awaited_shape evs)
  ∧ (∀ t env cl w, dropped (run env cl (handle t) w) = dropped w)
  ∧ (∀ username password env cl w,
       let w' := run env cl (message_unawaited username password) w in
       unawaited (message_unawaited username password)
       ∧ db w' = db w
       ∧ calls w' = calls w
       ∧ sent w' = sent w).
Proof.
  split_and!.
  - intros t env cl w. apply handle_shape.
  - intros t env cl w. apply handle_no_drop.
  - intros username password env cl w. cbv zeta. split_and!.
    + exists env, cl, (boot empty_db). by vm_compute.
    + done.
    + unfold calls. simpl. rewrite omap_app. simpl. apply app_nil_r.
    + unfold sent. simpl. rewrite omap_app. simpl. apply app_nil_r.
Qed.

(** * [deploy.sh] *)

Section DeployScript.

Import Deploy.

Implicit Types (h : Host) (plan : list (list string)).

Lemma until_failure_subseteq h plan c :
  c ∈ until_failure h plan → c ∈ plan.
Proof.
  induction plan as [|argv rest IH]; simpl; [done|].
  destruct (exit_status h argv).
  - intros [->|Hin]%elem_of_cons; [left|right; auto].
  - intros ->%list_elem_of_singleton. left.
Qed.

Lemma until_failure_head h argv rest :
  argv ∈ until_failure h (argv :: rest).
Proof. simpl. destruct (exit_status h argv); left. Qed.

Lemma until_failure_nil h plan : until_failure h plan = [] → plan = [].
Proof.
  destruct plan as [|argv rest]; [done|]. simpl.
  by destruct (exit_status h argv).
Qed.

(** No command fails: the whole plan runs and the status is 0. *)
Lemma first_failure_0 h plan :
  first_failure h plan = O ↔
  until_failure h plan = plan ∧ ∀ c, c ∈ plan → exit_status h c = O.
Proof.
  induction plan as [|argv rest IH]; simpl.
  - split; [|done]. intros _. split; [done|].
    intros c Hc. by apply not_elem_of_nil in Hc.
  - destruct (exit_status h argv) eqn:Hargv.
    + rewrite IH. split.
      * intros [-> Hall]. split; [done|].
        intros c [->|Hc]%elem_of_cons; auto.
      * intros [[= Heq] Hall]. split; [done|].
        intros c Hc. apply Hall. by right.
    + split; [done|]. intros [_ Hall].
      rewrite <- Hargv. apply Hall. left.
Qed.

Lemma until_failure_all_0 h plan :
  (∀ c, c ∈ until_failure h plan → exit_status h c = O) →
  first_failure h plan = O.
Proof.
  induction plan as [|argv rest IH]; simpl; [done|].
  destruct (exit_status h argv) eqn:Hargv.
  - intros Hall. apply IH. intros c Hc. apply Hall. by right.
  - intros Hall. rewrite <- Hargv. apply Hall. left.
Qed.

(** A command that fails is the last one started, and its status is the
    status of the run. *)
Lemma until_failure_failed h plan c :
  c ∈ until_failure h plan → exit_status h c ≠ O →
  last (until_failure h plan) = Some c
  ∧ first_failure h plan = exit_status h c.
Proof.
  induction plan as [|argv rest IH]; simpl.
  - intros Hc. by apply not_elem_of_nil in Hc.
  - destruct (exit_status h argv) eqn:Hargv.
    + intros [->|Hc]%elem_of_cons Hfail; [done|].
      destruct (IH Hc Hfail) as [Hlast Hstatus]. split; [|done].
      destruct (until_failure h rest); [done|]. exact Hlast.
    + intros ->%list_elem_of_singleton _. by rewrite Hargv.
Qed.

(** The run as a whole: [docker info], then — if it succeeded and the
    arguments select a stage — the stage, [sleep 5] and [docker compose ps],
    up to the first command that fails. *)
Lemma deploy_run h script args :
  commands h script args =
    docker_info ::
    match exit_status h docker_info, stage h args with
    | O, Some st => until_failure h (st ++ [sleep_5; compose_ps])
    | _, _ => []
    end
  ∧ exit_code h script args =
    match exit_status h docker_info, stage h args with
    | O, Some st => first_failure h (st ++ [sleep_5; compose_ps])
    | _, _ => 1%nat
    end.
Proof.
  unfold commands, exit_code, output, deploy, stage. cbv zeta.
  generalize (parameter (args !! 0%nat) "dev")
             (parameter (args !! 1%nat) "pull").
  intros ENV ACTION. destruct h as [st fl]. cbn [is_file].
  destruct (String.eqb ENV "prod");
    [destruct (fl "docker-compose.prod.yml"), (String.eqb ACTION "pull")
    |destruct (String.eqb ENV "dev"); [destruct (String.eqb ACTION "build")|]];
    vm_compute;
    repeat (first
      [ done
      | match goal with
        | |- context [st ?c] => destruct (st c) eqn:?; vm_compute
        end ]).
Qed.

(** What a run reports, computed: the closing line goes with status 0, a
    line of [print_error] with a run that stops right after [docker info]. *)
Lemma deploy_reports h script args :
  bool_decide (banner ∈ output h script args)
  = bool_decide (exit_code h script args = O)
  ∧ existsb is_error (output h script args)
    = bool_decide (commands h script args = [docker_info]).
Proof.
  unfold commands, exit_code, output, deploy. cbv zeta.
  generalize (parameter (args !! 0%nat) "dev")
             (parameter (args !! 1%nat) "pull").
  intros ENV ACTION. destruct h as [st fl]. cbn [is_file].
  destruct (String.eqb ENV "prod");
    [destruct (fl "docker-compose.prod.yml"), (String.eqb ACTION "pull")
    |destruct (String.eqb ENV "dev"); [destruct (String.eqb ACTION "build")|]];
    vm_compute;
    repeat (first
      [ done
      | match goal with
        | |- context [st ?c] => destruct (st c) eqn:?; vm_compute
        end ]).
Qed.

Lemma stage_None h args :
  stage h args = None ↔
  (parameter (args !! 0%nat) "dev" ≠ "prod"
   ∧ parameter (args !! 0%nat) "dev" ≠ "dev")
  ∨ (parameter (args !! 0%nat) "dev" = "prod"
     ∧ is_file h "docker-compose.prod.yml" = false).
Proof.
  unfold stage. cbv zeta.
  destruct (String.eqb_spec (parameter (args !! 0%nat) "dev") "prod")
    as [Hprod|Hprod].
  - destruct (is_file h "docker-compose.prod.yml"); split; try done.
    + intros [[? _]|[_ ?]]; done.
    + intros _. by right.
  - destruct (String.eqb_spec (parameter (args !! 0%nat) "dev") "dev")
      as [Hdev|Hdev]; split; try done.
    + intros [[_ ?]|[? _]]; done.
    + intros _. by left.
Qed.

Lemma commands_elem h script args c :
  c ∈ commands h script args ↔
  c = docker_info
  ∨ (exit_status h docker_info = O
     ∧ ∃ st, stage h args = Some st
             ∧ c ∈ until_failure h (st ++ [sleep_5; compose_ps])).
Proof.
  destruct (deploy_run h script args) as [-> _].
  rewrite elem_of_cons.
  destruct (exit_status h docker_info) as [|n], (stage h args) as [st|];
    split; intros [?|Hin]; auto.
  - right. eauto.
  - destruct Hin as (_ & st' & [= <-] & Hin). by right.
  - by apply not_elem_of_nil in Hin.
  - by destruct Hin as (_ & st' & [=] & _).
  - by apply not_elem_of_nil in Hin.
  - by destruct Hin as ([=] & _).
  - by apply not_elem_of_nil in Hin.
  - by destruct Hin as ([=] & _).
Qed.

Ltac refute_member H :=
  exfalso; revert H; apply (bool_decide_eq_false_1 _); by vm_compute.

(** X1. The script gives up right after [docker info] — no other command is
    started — exactly when Docker is not running, or the environment (after
    defaulting) is neither [prod] nor [dev], or it is [prod] and
    [docker-compose.prod.yml] is missing; in each of these cases the exit
    status is 1. *)
Theorem deploy_gives_up h script args :
  let ENV := parameter (args !! 0%nat) "dev" in
  let gives_up :=
    exit_status h docker_info ≠ O
    ∨ (ENV ≠ "prod" ∧ ENV ≠ "dev")
    ∨ (ENV = "prod" ∧ is_file h "docker-compose.prod.yml" = false) in
  (commands h script args = [docker_info] ↔ gives_up)
  ∧ (gives_up → exit_code h script args = 1%nat).
Proof.
  cbv zeta. destruct (deploy_run h script args) as [-> ->].
  pose proof (stage_None h args) as Hnone.
  destruct (exit_status h docker_info) as [|n]; [|split; [split|]; auto].
  destruct (stage h args) as [st|].
  - split; [split|].
    + intros [= Hnil]. apply until_failure_nil in Hnil.
      by destruct st.
    + intros [?|Hgu]; [done|]. by apply Hnone in Hgu.
    + intros [?|Hgu]; [done|]. by apply Hnone in Hgu.
  - split; [split|]; [|done|done].
    intros _. right. by apply Hnone.
Qed.

Lemma deploy_gives_up_witness :
  (exit_status no_daemon docker_info ≠ O
   ∨ (parameter (["prod"] !! 0%nat) "dev" ≠ "prod"
      ∧ parameter (["prod"] !! 0%nat) "dev" ≠ "dev")
   ∨ (parameter (["prod"] !! 0%nat) "dev" = "prod"
      ∧ is_file no_daemon "docker-compose.prod.yml" = false))
  ∧ commands no_daemon "./deploy.sh" ["prod"] = [docker_info]
  ∧ exit_code no_daemon "./deploy.sh" ["prod"] = 1%nat.
Proof.
  assert (Hdown : exit_status no_daemon docker_info ≠ O) by done.
  destruct (deploy_gives_up no_daemon "./deploy.sh" ["prod"])
    as [Hcommands Hexit].
  split; [by left|]. split.
  - apply Hcommands. by left.
  - apply Hexit. by left.
Defined.

(** X2. Images are pulled exactly when Docker runs, the environment is
    [prod], [docker-compose.prod.yml] is there and the action (after
    defaulting) is [pull]; images are built exactly when Docker runs, the
    environment is [dev] and the action is [build]. So [build] is ignored in
    [prod], and [pull] — the default — pulls nothing in [dev]. *)
Theorem deploy_pulls_and_builds h script args :
  let ENV := parameter (args !! 0%nat) "dev" in
  let ACTION := parameter (args !! 1%nat) "pull" in
  (compose_prod_pull ∈ commands h script args ↔
     exit_status h docker_info = O ∧ ENV = "prod"
     ∧ is_file h "docker-compose.prod.yml" = true ∧ ACTION = "pull")
  ∧ (compose_up_build ∈ commands h script args ↔
     exit_status h docker_info = O ∧ ENV = "dev" ∧ ACTION = "build").
Proof.
  cbv zeta. rewrite !commands_elem. unfold stage. cbv zeta.
  destruct (String.eqb_spec (parameter (args !! 0%nat) "dev") "prod")
    as [Hprod|Hprod];
    [rewrite Hprod; destruct (is_file h "docker-compose.prod.yml");
     [destruct (String.eqb_spec (parameter (args !! 1%nat) "pull") "pull")
        as [Hpull|Hpull]|]
    |destruct (String.eqb_spec (parameter (args !! 0%nat) "dev") "dev")
       as [Hdev|Hdev];
     [destruct (String.eqb_spec (parameter (args !! 1%nat) "pull") "build")
        as [Hbuild|Hbuild]|]];
    (split; split;
     [ intros [?|(Hd & st & Hst & Hin%until_failure_subseteq)]; [done|];
       simplify_eq; first [done | refute_member Hin]
     | intros (Hd & Hrest);
       first [ by destruct_and!
             | right; split; [done|]; eexists; split; [done|];
               apply until_failure_head ]
     | intros [?|(Hd & st & Hst & Hin%until_failure_subseteq)]; [done|];
       simplify_eq; first [done | refute_member Hin]
     | intros (Hd & Hrest);
       first [ by destruct_and!
             | right; split; [done|]; eexists; split; [done|];
               apply until_failure_head ] ]).
Qed.

Lemma deploy_pulls_and_builds_witness :
  compose_prod_pull ∈ commands ready "./deploy.sh" ["prod"]
  ∧ compose_up_build ∈ commands ready "./deploy.sh" ["dev"; "build"].
Proof.
  split.
  - apply (proj1 (deploy_pulls_and_builds ready "./deploy.sh" ["prod"])).
    by vm_compute.
  - apply (proj2 (deploy_pulls_and_builds ready "./deploy.sh"
                    ["dev"; "build"])).
    by vm_compute.
Defined.

(** X3. The script ends with status 0 exactly when every command it started
    succeeded and [docker compose ps] was among them. In that case it
    started, after [docker info], the whole stage its arguments select, then
    [sleep 5] and [docker compose ps]. *)
Theorem deploy_succeeds_iff h script args :
  (exit_code h script args = O ↔
     (∀ c, c ∈ commands h script args → exit_status h c = O)
     ∧ compose_ps ∈ commands h script args)
  ∧ (exit_code h script args = O →
     ∃ st, stage h args = Some st
           ∧ commands h script args =
             docker_info :: st ++ [sleep_5; compose_ps]).
Proof.
  destruct (deploy_run h script args) as [Hcommands Hexit].
  rewrite Hexit, Hcommands.
  destruct (exit_status h docker_info) as [|n] eqn:Hinfo.
  2: { split; [split|]; try done. intros [Hall _].
       assert (exit_status h docker_info = O) by (apply Hall; left).
       congruence. }
  destruct (stage h args) as [st|].
  2: { split; [split|]; try done. intros [_ Hps].
       apply elem_of_cons in Hps as [Heq|Hps]; [done|].
       by apply not_elem_of_nil in Hps. }
  split; [split|].
  - intros [Hrun Hall]%first_failure_0. rewrite Hrun. split.
    + intros c [->|Hc]%elem_of_cons; auto.
    + right. apply elem_of_app. right. right. left.
  - intros [Hall _]. apply until_failure_all_0.
    intros c Hc. apply Hall. by right.
  - intros [Hrun _]%first_failure_0. exists st. by rewrite Hrun.
Qed.

Lemma deploy_succeeds_iff_witness :
  exit_code ready "./deploy.sh" ["prod"] = O
  ∧ ∃ st, stage ready ["prod"] = Some st
          ∧ commands ready "./deploy.sh" ["prod"] =
            docker_info :: st ++ [sleep_5; compose_ps].
Proof.
  split; [reflexivity|].
  apply (proj2 (deploy_succeeds_iff ready "./deploy.sh" ["prod"])).
  reflexivity.
Defined.

(** X4. Under [set -e] nothing runs after a failure: a command other than
    [docker info] that the script started and that failed is the last
    command of the run, and the script ends with that command's status. *)
Theorem deploy_stops_at_first_failure h script args c :
  c ∈ commands h script args →
  c ≠ docker_info →
  exit_status h c ≠ O →
  last (commands h script args) = Some c
  ∧ exit_code h script args = exit_status h c.
Proof.
  intros [?|(Hinfo & st & Hst & Hin)]%commands_elem Hc Hfail; [done|].
  destruct (deploy_run h script args) as [-> ->].
  rewrite Hinfo, Hst.
  destruct (until_failure_failed h _ c Hin Hfail) as [Hlast Hstatus].
  split; [|done].
  destruct (until_failure h (st ++ [sleep_5; compose_ps])); [done|].
  exact Hlast.
Qed.

Lemma deploy_stops_at_first_failure_witness :
  compose_prod_pull ∈ commands no_registry "./deploy.sh" ["prod"; "pull"]
  ∧ compose_prod_pull ≠ docker_info
  ∧ exit_status no_registry compose_prod_pull ≠ O
  ∧ last (commands no_registry "./deploy.sh" ["prod"; "pull"])
    = Some compose_prod_pull
  ∧ exit_code no_registry "./deploy.sh" ["prod"; "pull"] = 18%nat.
Proof.
  assert (H1 : compose_prod_pull
               ∈ commands no_registry "./deploy.sh" ["prod"; "pull"]).
  { apply (bool_decide_eq_true_1 _). by vm_compute. }
  assert (H2 : compose_prod_pull ≠ docker_info) by done.
  assert (H3 : exit_status no_registry compose_prod_pull ≠ O) by done.
  split; [exact H1|]. split; [exact H2|]. split; [exact H3|].
  apply (deploy_stops_at_first_failure no_registry "./deploy.sh"
           ["prod"; "pull"] compose_prod_pull H1 H2 H3).
Defined.

(** X5. Arguments that are missing or empty take their defaults, and in [dev]
    every action other than [build] is the default: with a first argument
    that is empty or [dev] and a second argument other than [build], the
    script prints, starts and returns exactly what it does without
    arguments; arguments after the second are never read. *)
Theorem deploy_defaults h script env action rest :
  env = "" ∨ env = "dev" →
  action ≠ "build" →
  output h script (env :: action :: rest) = output h script []
  ∧ exit_code h script (env :: action :: rest) = exit_code h script [].
Proof.
  intros Henv Haction. unfold exit_code, output, deploy. cbv zeta.
  assert (parameter ([env; action] !! 0%nat) "dev" = "dev") as Hdev.
  { by destruct Henv as [-> | ->]. }
  assert (String.eqb (parameter ([env; action] !! 1%nat) "pull") "build"
          = false) as Hpull.
  { simpl. destruct (String.eqb_spec action ""); [done|].
    by apply String.eqb_neq. }
  change ((env :: action :: rest) !! 0%nat) with ([env; action] !! 0%nat).
  change ((env :: action :: rest) !! 1%nat) with ([env; action] !! 1%nat).
  rewrite Hdev, Hpull. done.
Qed.

Lemma deploy_defaults_witness :
  ("" = "" ∨ "" = "dev") ∧ "pull" ≠ "build"
  ∧ output ready "./deploy.sh" [""; "pull"; "now"]
    = output ready "./deploy.sh" []
  ∧ exit_code ready "./deploy.sh" [""; "pull"; "now"]
    = exit_code ready "./deploy.sh" [].
Proof.
  split; [by left|]. split; [done|].
  apply (deploy_defaults ready "./deploy.sh" "" "pull" ["now"]);
    [by left|done].
Defined.

(** X19. What the script reports. The closing line ["Deployment complete!"]
    is printed exactly when the exit status is 0. A line of [print_error] is
    printed exactly when the script stops right after [docker info]; so a run
    that ends because a command failed prints neither: [set -e] ends it
    without a word of the script's own. *)
Theorem deploy_reports_outcome h script args :
  (banner ∈ output h script args ↔ exit_code h script args = O)
  ∧ ((∃ e, e ∈ output h script args ∧ is_error e = true) ↔
     commands h script args = [docker_info]).
Proof.
  destruct (deploy_reports h script args) as [Hbanner Herror]. split.
  - rewrite <- (bool_decide_spec (banner ∈ _)), Hbanner.
    apply bool_decide_spec.
  - rewrite <- (bool_decide_spec (commands _ _ _ = _)), <- Herror.
    rewrite Is_true_true, existsb_exists.
    by setoid_rewrite <- list_elem_of_In.
Qed.

End DeployScript.

(** * More on the REST adapter *)

Section Rest.

Context (env : Env) (cl : PrismaClient).

Implicit Types (w : World) (d : DB).

Lemma sent_after_call {T} (c : storageE T) r o d n m w :
  sent (mkWorld d n m (trace w ++ [Called c r; Sent o])) = sent w ++ [o].
Proof. unfold sent. cbn [trace]. by rewrite omap_app. Qed.

Lemma sent_log o w : sent (log (Sent o) w) = sent w ++ [o].
Proof. unfold sent, log. cbn [trace]. by rewrite omap_app. Qed.

(** Every route, run: the 400 of its validation, or its one call and the
    answer to it. *)
Lemma run_app rt body w :
  run env cl (app rt body) w =
  match route_call rt body with
  | Some (existT _ c) =>
      mkWorld (query env cl (ncalls w) c (db w)).2 (S (ncalls w)) (nrand w)
        (trace w ++
         [Called c (query env cl (ncalls w) c (db w)).1;
          Sent (rest_response rt c (query env cl (ncalls w) c (db w)).1)])
  | None => log (Sent (Http 400 (BError (validation_message rt)))) w
  end.
Proof.
  destruct rt; simpl app; simpl route_call.
  - apply run_get_root.
  - apply run_get_todos.
  - destruct (truthy (field "username" body)) eqn:Hu;
      [destruct (truthy (field "password" body)) eqn:Hp|]; simpl.
    + by apply run_post_root_accepted.
    + apply run_post_root_rejected. auto.
    + apply run_post_root_rejected. auto.
  - destruct (truthy (field "task" body)) eqn:Hu;
      [destruct (truthy (field "userId" body)) eqn:Hp|]; simpl.
    + by apply run_post_todos_accepted.
    + apply run_post_todos_rejected. auto.
    + apply run_post_todos_rejected. auto.
Qed.

(** What a fulfilled call returned and did. *)
Lemma query_fulfilled {T} n (c : storageE T) d v :
  (query env cl n c d).1 = inr v →
  round_trip env cl n = None
  ∧ match c in storageE T return T → Prop with
    | UserFindMany => λ v, v = users d ∧ (query env cl n UserFindMany d).2 = d
    | TodoFindMany => λ v, v = todos d ∧ (query env cl n TodoFindMany d).2 = d
    | UserCreate username password => λ v,
        (query env cl n (UserCreate username password) d).2
          = mkDB (users d ++ [v]) (todos d)
        ∧ as_string username = Some (User.username v)
        ∧ as_string password = Some (User.password v)
        ∧ User.id v = id_at env n
        ∧ (User.id v ∉ user_ids d)
        ∧ has_nul (User.id v) || has_nul (User.username v)
          || has_nul (User.password v) = false
    | TodoCreate task userId done => λ v,
        (query env cl n (TodoCreate task userId done) d).2
          = mkDB (users d) (todos d ++ [v])
        ∧ as_string task = Some (Todo.task v)
        ∧ as_string userId = Some (Todo.userId v)
        ∧ (as_optional_bool done = Some (Some (Todo.done v))
           ∨ as_optional_bool done = Some None ∧ Todo.done v = false)
        ∧ Todo.id v = id_at env n
        ∧ (Todo.id v ∉ todo_ids d)
        ∧ (Todo.userId v ∈ user_ids d)
        ∧ has_nul (Todo.id v) || has_nul (Todo.task v)
          || has_nul (Todo.userId v) = false
    end v.
Proof.
  destruct c as [| |username password|task userId done]; simpl.
  - destruct (round_trip env cl n); [done|]. by intros [= <-].
  - destruct (round_trip env cl n); [done|]. by intros [= <-].
  - destruct (as_string username) as [u|], (as_string password) as [p|];
      try done.
    destruct (round_trip env cl n); [done|].
    unfold db_insert_user. cbn [User.id User.username User.password].
    destruct (_ || _) eqn:Hnul; [done|].
    case_bool_decide as Hid; [done|].
    simpl. by intros [= <-].
  - destruct (as_string task) as [t|], (as_string userId) as [u|],
      (as_optional_bool done) as [dn|]; try done.
    destruct (round_trip env cl n); [done|].
    unfold db_insert_todo. destruct (_ || _) eqn:Hnul; [done|].
    case_bool_decide as Hid; [done|]. case_bool_decide as Href; [|done].
    simpl. intros [= <-]. split; [done|]. split_and!; try done.
    destruct dn as [b|]; [by left|by right].
Qed.

Lemma as_string_Some v s : as_string v = Some s ↔ v = Some (JStr s).
Proof.
  split; [|by intros ->].
  destruct v as [[]|]; simpl; try done. by intros [= ->].
Qed.

Lemma truthy_string s : truthy (Some (JStr s)) = true ↔ s ≠ "".
Proof. simpl. rewrite negb_true_iff. apply String.eqb_neq. Qed.

Lemma snoc_ne {A} (l : list A) x : l ++ [x] ≠ l.
Proof.
  intros Heq. apply (f_equal length) in Heq.
  rewrite length_app in Heq. simpl in Heq. lia.
Qed.

End Rest.

(** X6. Every request on one of the four routes gets exactly one response.
    A [GET] is answered 200 or 500, a [POST] 201, 400 or 500. The 400 is
    sent without any Prisma call; every other answer is sent after exactly
    one. *)
Theorem rest_one_response env cl rt body w :
  let w' := run env cl (app rt body) w in
  ∃ st b,
    sent w' = sent w ++ [Http st b]
    ∧ match rt with
      | GET_root | GET_todos => st = 200%Z ∨ st = 500%Z
      | POST_root | POST_todos => st = 201%Z ∨ st = 400%Z ∨ st = 500%Z
      end
    ∧ ((st = 400%Z ∧ ncalls w' = ncalls w ∧ calls w' = calls w)
       ∨ (st ≠ 400%Z ∧ ncalls w' = S (ncalls w)
          ∧ length (calls w') = S (length (calls w)))).
Proof.
  cbv zeta. rewrite run_app.
  destruct (route_call rt body) as [[T c]|] eqn:Hcall.
  - destruct (query env cl (ncalls w) c (db w)).1 as [e|v] eqn:Hr.
    + exists 500%Z, (BError "Internal Server Error").
      rewrite sent_after_call. split_and!; [done| |].
      * destruct rt; auto.
      * right. split_and!; [done|done|].
        unfold calls. cbn [trace]. rewrite omap_app, length_app. simpl. lia.
    + exists (success_status rt), (body_of c v).
      rewrite sent_after_call. split_and!; [done| |].
      * destruct rt; simpl; auto.
      * right. split_and!; [by destruct rt|done|].
        unfold calls. cbn [trace]. rewrite omap_app, length_app. simpl. lia.
  - exists 400%Z, (BError (validation_message rt)).
    rewrite sent_log. split_and!; [done| |].
    + destruct rt; simpl in Hcall; try done; auto.
    + left. split_and!; [done|done|apply calls_log_sent].
Qed.

(** X7. A request changes the tables exactly when it is answered 201, and
    then by exactly one row, appended after the rows that were there; with
    any other answer both tables are exactly as before. *)
Theorem rest_writes_iff_201 env cl rt body w :
  let w' := run env cl (app rt body) w in
  ∃ st b,
    sent w' = sent w ++ [Http st b]
    ∧ ((st = 201%Z ∧ db w' ≠ db w
        ∧ rows (db w') = S (rows (db w))
        ∧ preserved (db w) (db w'))
       ∨ (st ≠ 201%Z ∧ db w' = db w)).
Proof.
  cbv zeta. rewrite run_app.
  assert (Hrejected : ∀ T (c : storageE T) e,
    (query env cl (ncalls w) c (db w)).1 = inl e →
    ∃ st b,
      sent (mkWorld (query env cl (ncalls w) c (db w)).2 (S (ncalls w))
              (nrand w)
              (trace w ++
               [Called c (query env cl (ncalls w) c (db w)).1;
                Sent (rest_response rt c
                        (query env cl (ncalls w) c (db w)).1)]))
        = sent w ++ [Http st b]
      ∧ ((st = 201%Z ∧ (query env cl (ncalls w) c (db w)).2 ≠ db w
          ∧ rows (query env cl (ncalls w) c (db w)).2 = S (rows (db w))
          ∧ preserved (db w) (query env cl (ncalls w) c (db w)).2)
         ∨ (st ≠ 201%Z ∧ (query env cl (ncalls w) c (db w)).2 = db w))).
  { intros T c e Hr. exists 500%Z, (BError "Internal Server Error").
    rewrite sent_after_call, Hr. split; [done|]. right. split; [done|].
    by eapply query_rejected_unchanged. }
  destruct rt; cbn [route_call];
    try destruct (truthy _ && truthy _);
    try (exists 400%Z, (BError (validation_message POST_root));
         rewrite sent_log; split; [done|]; by right);
    try (exists 400%Z, (BError (validation_message POST_todos));
         rewrite sent_log; split; [done|]; by right);
    cbn [db];
    match goal with
    | |- context [query env cl (ncalls w) ?c (db w)] =>
        destruct (query env cl (ncalls w) c (db w)).1 as [e|v] eqn:Hr;
        [rewrite <- Hr; by eapply Hrejected|];
        pose proof (query_fulfilled env cl _ c _ v Hr) as [_ Hv];
        cbv beta in Hv
    end.
  - exists 200%Z, (BUsers v). rewrite sent_after_call. split; [done|].
    right. by destruct Hv as [_ ->].
  - exists 200%Z, (BTodos v). rewrite sent_after_call. split; [done|].
    right. by destruct Hv as [_ ->].
  - exists 201%Z, (BUser v). rewrite sent_after_call. split; [done|].
    destruct Hv as (-> & _). left. split_and!; [done| | |].
    + intros Heq. apply (f_equal users) in Heq. cbn [users] in Heq.
      by apply snoc_ne in Heq.
    + unfold rows. cbn [users todos]. rewrite length_app. cbn [length]. lia.
    + split; cbn [users todos]; [by apply prefix_app_r|done].
  - exists 201%Z, (BTodo v). rewrite sent_after_call. split; [done|].
    destruct Hv as (-> & _). left. split_and!; [done| | |].
    + intros Heq. apply (f_equal todos) in Heq. cbn [todos] in Heq.
      by apply snoc_ne in Heq.
    + unfold rows. cbn [users todos]. rewrite length_app. cbn [length]. lia.
    + split; cbn [users todos]; [done|by apply prefix_app_r].
Qed.

(** X8. The answer of [POST /], case by case. It is 400 exactly when
    [username] or [password] is falsy. It is 201 exactly when both are
    non-empty strings, the round-trip to the store goes through, the
    generated id is not yet a key of the [User] table and none of the three
    holds U+0000. In every other case — a truthy value that is not a string,
    a lost round-trip, an id that is taken, a text the store refuses — it is
    500. *)
Theorem post_root_status env cl body w :
  let username := field "username" body in
  let password := field "password" body in
  let w' := run env cl (post_root body) w in
  ∃ st b,
    sent w' = sent w ++ [Http st b]
    ∧ (st = 400%Z ∨ st = 201%Z ∨ st = 500%Z)
    ∧ (st = 400%Z ↔ truthy username = false ∨ truthy password = false)
    ∧ (st = 201%Z ↔
       ∃ u p, username = Some (JStr u) ∧ u ≠ ""
              ∧ password = Some (JStr p) ∧ p ≠ ""
              ∧ round_trip env cl (ncalls w) = None
              ∧ (id_at env (ncalls w) ∉ user_ids (db w))
              ∧ has_nul (id_at env (ncalls w)) = false
              ∧ has_nul u = false ∧ has_nul p = false).
Proof.
  cbv zeta.
  destruct (truthy (field "username" body)) eqn:Hu;
    [destruct (truthy (field "password" body)) eqn:Hp|].
  2,3: (rewrite run_post_root_rejected by auto;
        exists 400%Z, (BError "Username and password are required");
        rewrite sent_log; split_and!; [done|auto|split; auto|];
        split; [done|];
        intros (u & p & Hu' & ?%truthy_string & Hp' & ?%truthy_string & _);
        rewrite ?Hu', ?Hp' in *; congruence).
  rewrite run_post_root_accepted by done. cbv zeta.
  rewrite sent_after_call.
  destruct (as_string (field "username" body)) as [u|] eqn:Hu';
    [destruct (as_string (field "password" body)) as [p|] eqn:Hp'|].
  - apply as_string_Some in Hu', Hp'. rewrite Hu', Hp' in *.
    apply truthy_string in Hu, Hp.
    rewrite query_user_create.
    destruct (round_trip env cl (ncalls w)) as [f|] eqn:Hrt.
    { exists 500%Z, (BError "Internal Server Error").
      split_and!; [done|auto|split; [done|by intros [|]]|].
      split; [done|]. by intros (? & ? & _ & _ & _ & _ & ? & _). }
    destruct (has_nul _ || has_nul u || has_nul p) eqn:Hnul.
    { exists 500%Z, (BError "Internal Server Error").
      split_and!; [done|auto|split; [done|by intros [|]]|].
      split; [done|].
      intros (u' & p' & [= <-] & _ & [= <-] & _ & _ & _ & Hi & Hnu & Hnp).
      by rewrite Hi, Hnu, Hnp in Hnul. }
    apply no_nul_3 in Hnul as (Hni & Hnu & Hnp).
    case_bool_decide as Hid.
    { exists 500%Z, (BError "Internal Server Error").
      split_and!; [done|auto|split; [done|by intros [|]]|].
      split; [done|]. by intros (? & ? & _ & _ & _ & _ & _ & ? & _). }
    exists 201%Z, (BUser (User.mk (id_at env (ncalls w)) u p)).
    split_and!; [done|auto|split; [done|by intros [|]]|].
    split; [|done]. intros _. by exists u, p.
  - exists 500%Z, (BError "Internal Server Error"). simpl.
    rewrite Hu', Hp'. simpl.
    split_and!; [done|auto|split; [done|intros [|]; congruence]|].
    split; [done|]. intros (? & p & _ & _ & Hp'' & _).
    rewrite Hp'' in Hp'. done.
  - exists 500%Z, (BError "Internal Server Error"). simpl.
    rewrite Hu'. simpl.
    split_and!; [done|auto|split; [done|intros [|]; congruence]|].
    split; [done|]. intros (u & ? & Hu'' & _).
    rewrite Hu'' in Hu'. done.
Qed.

(** X9. The answer of [POST /todos], case by case. It is 400 exactly when
    [task] or [userId] is falsy. It is 201 exactly when both are non-empty
    strings, [done] is left out or a boolean, the round-trip goes through,
    the generated id is not yet a key of the [Todo] table, [userId] is the
    id of a stored [User] and neither the id nor the two strings hold U+0000;
    the body is then the stored row, whose [done] is the boolean that was
    sent, or [false] if none was. In every other case it is 500. *)
Theorem post_todos_status env cl body w :
  let task := field "task" body in
  let userId := field "userId" body in
  let done := field "done" body in
  let w' := run env cl (post_todos body) w in
  ∃ st b,
    sent w' = sent w ++ [Http st b]
    ∧ (st = 400%Z ∨ st = 201%Z ∨ st = 500%Z)
    ∧ (st = 400%Z ↔ truthy task = false ∨ truthy userId = false)
    ∧ (st = 201%Z ↔
       ∃ t u dn, task = Some (JStr t) ∧ t ≠ ""
                 ∧ userId = Some (JStr u) ∧ u ≠ ""
                 ∧ as_optional_bool done = Some dn
                 ∧ round_trip env cl (ncalls w) = None
                 ∧ (id_at env (ncalls w) ∉ todo_ids (db w))
                 ∧ (u ∈ user_ids (db w))
                 ∧ has_nul (id_at env (ncalls w)) = false
                 ∧ has_nul t = false ∧ has_nul u = false
                 ∧ b = BTodo (Todo.mk (id_at env (ncalls w)) t
                                (default false dn) u)).
Proof.
  cbv zeta.
  destruct (truthy (field "task" body)) eqn:Ht;
    [destruct (truthy (field "userId" body)) eqn:Hu|].
  2,3: (rewrite run_post_todos_rejected by auto;
        exists 400%Z, (BError "Task and userId are required");
        rewrite sent_log; split_and!; [done|auto|split; auto|];
        split; [done|];
        intros (t & u & dn & Ht' & ?%truthy_string & Hu' & ?%truthy_string
                & _);
        rewrite ?Ht', ?Hu' in *; congruence).
  rewrite run_post_todos_accepted by done. cbv zeta.
  rewrite sent_after_call.
  destruct (as_string (field "task" body)) as [t|] eqn:Ht';
    [destruct (as_string (field "userId" body)) as [u|] eqn:Hu';
     [destruct (as_optional_bool (field "done" body)) as [dn|] eqn:Hdn|]|].
  - apply as_string_Some in Ht', Hu'. rewrite Ht', Hu' in *.
    apply truthy_string in Ht, Hu.
    rewrite (query_todo_create env cl _ t u _ dn) by done.
    destruct (round_trip env cl (ncalls w)) as [f|] eqn:Hrt.
    { exists 500%Z, (BError "Internal Server Error").
      split_and!; [done|auto|split; [done|by intros [|]]|].
      split; [done|]. by intros (? & ? & ? & _ & _ & _ & _ & _ & ? & _). }
    destruct (has_nul _ || has_nul t || has_nul u) eqn:Hnul.
    { exists 500%Z, (BError "Internal Server Error").
      split_and!; [done|auto|split; [done|by intros [|]]|].
      split; [done|].
      intros (t' & u' & ? & [= <-] & _ & [= <-] & _ & _ & _ & _ & _
              & Hi & Hnt & Hnu & _).
      by rewrite Hi, Hnt, Hnu in Hnul. }
    apply no_nul_3 in Hnul as (Hni & Hnt & Hnu).
    case_bool_decide as Hid.
    { exists 500%Z, (BError "Internal Server Error").
      split_and!; [done|auto|split; [done|by intros [|]]|].
      split; [done|].
      by intros (? & ? & ? & _ & _ & _ & _ & _ & _ & ? & _). }
    case_bool_decide as Href.
    2: { exists 500%Z, (BError "Internal Server Error").
         split_and!; [done|auto|split; [done|by intros [|]]|].
         split; [done|].
         intros (? & u' & ? & _ & _ & [= <-] & _ & _ & _ & _ & ? & _).
         done. }
    exists 201%Z, (BTodo (todo_row (id_at env (ncalls w)) t dn u)).
    split_and!; [done|auto|split; [done|by intros [|]]|].
    split; [|done]. intros _. by exists t, u, dn.
  - exists 500%Z, (BError "Internal Server Error"). simpl.
    rewrite Ht', Hu', Hdn. simpl.
    split_and!; [done|auto|split; [done|intros [|]; congruence]|].
    split; [done|]. intros (? & ? & dn & _ & _ & _ & _ & Hdn' & _).
    done.
  - exists 500%Z, (BError "Internal Server Error"). simpl.
    rewrite Ht', Hu'. simpl.
    split_and!; [done|auto|split; [done|intros [|]; congruence]|].
    split; [done|]. intros (? & u & ? & _ & _ & Hu'' & _).
    rewrite Hu'' in Hu'. done.
  - exists 500%Z, (BError "Internal Server Error"). simpl.
    rewrite Ht'. simpl.
    split_and!; [done|auto|split; [done|intros [|]; congruence]|].
    split; [done|]. intros (t & ? & ? & Ht'' & _).
    rewrite Ht'' in Ht'. done.
Qed.

Section Listings.

Context (env : Env) (cl : PrismaClient).

Implicit Types (w : World).

(** A 200 of [GET /] carries the [User] table as it is. *)
Lemma get_root_200 w rows :
  sent (run env cl get_root w) = sent w ++ [Http 200 (BUsers rows)] →
  rows = users (db w) ∧ db (run env cl get_root w) = db w.
Proof.
  rewrite run_get_root, sent_after_call. cbn [db].
  intros Hsent%app_inj_tail. destruct Hsent as [_ Hsent].
  destruct (query env cl (ncalls w) UserFindMany (db w)).1 as [e|v] eqn:Hr;
    [done|].
  injection Hsent as ->.
  by apply query_fulfilled in Hr as [_ [-> ->]].
Qed.

(** A 200 of [GET /todos] carries the [Todo] table as it is. *)
Lemma get_todos_200 w rows :
  sent (run env cl get_todos w) = sent w ++ [Http 200 (BTodos rows)] →
  rows = todos (db w) ∧ db (run env cl get_todos w) = db w.
Proof.
  rewrite run_get_todos, sent_after_call. cbn [db].
  intros Hsent%app_inj_tail. destruct Hsent as [_ Hsent].
  destruct (query env cl (ncalls w) TodoFindMany (db w)).1 as [e|v] eqn:Hr;
    [done|].
  injection Hsent as ->.
  by apply query_fulfilled in Hr as [_ [-> ->]].
Qed.

(** The row in a 201 of [POST /] is in the [User] table. *)
Lemma post_root_201 body w row :
  sent (run env cl (post_root body) w) = sent w ++ [Http 201 (BUser row)] →
  row ∈ users (db (run env cl (post_root body) w)).
Proof.
  change (post_root body) with (app POST_root body). rewrite run_app.
  cbn [route_call].
  destruct (truthy (field "username" body) && truthy (field "password" body)).
  - rewrite sent_after_call. cbn [db].
    intros Hsent%app_inj_tail. destruct Hsent as [_ Hsent].
    destruct (query env cl (ncalls w) _ (db w)).1 as [e|v] eqn:Hr; [done|].
    injection Hsent as ->.
    apply query_fulfilled in Hr as [_ [-> _]]. cbn [users].
    apply elem_of_app. right. left.
  - rewrite sent_log. by intros [_ [=]]%app_inj_tail.
Qed.

(** The row in a 201 of [POST /todos] is in the [Todo] table. *)
Lemma post_todos_201 body w row :
  sent (run env cl (post_todos body) w) = sent w ++ [Http 201 (BTodo row)] →
  row ∈ todos (db (run env cl (post_todos body) w)).
Proof.
  change (post_todos body) with (app POST_todos body). rewrite run_app.
  cbn [route_call].
  destruct (truthy (field "task" body) && truthy (field "userId" body)).
  - rewrite sent_after_call. cbn [db].
    intros Hsent%app_inj_tail. destruct Hsent as [_ Hsent].
    destruct (query env cl (ncalls w) _ (db w)).1 as [e|v] eqn:Hr; [done|].
    injection Hsent as ->.
    apply query_fulfilled in Hr as [_ [-> _]]. cbn [todos].
    apply elem_of_app. right. left.
  - rewrite sent_log. by intros [_ [=]]%app_inj_tail.
Qed.

End Listings.

(** X10. Listings only grow: if [GET /] is answered 200 with some rows and,
    after the services have handled any further triggers, is answered 200
    again, the second list starts with the first one — nothing listed once
    is later missing, changed or moved. The same holds for [GET /todos]. *)
Theorem listings_only_grow env cl ts w :
  let w1 := run env cl get_root w in
  let w2 := serve env cl ts w1 in
  let v1 := run env cl get_todos w in
  let v2 := serve env cl ts v1 in
  (∀ rows rows',
     sent w1 = sent w ++ [Http 200 (BUsers rows)] →
     sent (run env cl get_root w2) = sent w2 ++ [Http 200 (BUsers rows')] →
     rows `prefix_of` rows')
  ∧ (∀ rows rows',
     sent v1 = sent w ++ [Http 200 (BTodos rows)] →
     sent (run env cl get_todos v2) = sent v2 ++ [Http 200 (BTodos rows')] →
     rows `prefix_of` rows').
Proof.
  cbv zeta. split.
  - intros rows rows' [-> Hdb]%get_root_200 [-> _]%get_root_200.
    rewrite <- Hdb. apply serve_preserved.
  - intros rows rows' [-> Hdb]%get_todos_200 [-> _]%get_todos_200.
    rewrite <- Hdb. apply serve_preserved.
Qed.

Lemma listings_only_grow_witness :
  sent (run healthy configured get_root (boot one_user))
    = sent (boot one_user) ++ [Http 200 (BUsers [alice_row])]
  ∧ sent (run healthy configured get_root
            (serve healthy configured [WsMessage (Text "hi")]
               (run healthy configured get_root (boot one_user))))
    = sent (serve healthy configured [WsMessage (Text "hi")]
              (run healthy configured get_root (boot one_user)))
      ++ [Http 200 (BUsers [alice_row; User.mk "id-1" "0.0" "0.1"])]
  ∧ [alice_row] `prefix_of` [alice_row; User.mk "id-1" "0.0" "0.1"].
Proof.
  split; [reflexivity|]. split; [by vm_compute|].
  apply (proj1 (listings_only_grow healthy configured
                  [WsMessage (Text "hi")] (boot one_user))).
  - reflexivity.
  - by vm_compute.
Defined.

(** X11. What was created is listed: once [POST /] has answered 201 with a
    row, every later [GET /] that is answered 200 — whatever the services
    handled in between — has that row in its list; likewise for
    [POST /todos] and [GET /todos]. *)
Theorem created_rows_are_listed env cl body ts w :
  let w1 := run env cl (post_root body) w in
  let w2 := serve env cl ts w1 in
  let v1 := run env cl (post_todos body) w in
  let v2 := serve env cl ts v1 in
  (∀ row rows,
     sent w1 = sent w ++ [Http 201 (BUser row)] →
     sent (run env cl get_root w2) = sent w2 ++ [Http 200 (BUsers rows)] →
     row ∈ rows)
  ∧ (∀ row rows,
     sent v1 = sent w ++ [Http 201 (BTodo row)] →
     sent (run env cl get_todos v2) = sent v2 ++ [Http 200 (BTodos rows)] →
     row ∈ rows).
Proof.
  cbv zeta. split.
  - intros row rows Hrow%post_root_201 [-> _]%get_root_200.
    destruct (serve_preserved env cl ts (run env cl (post_root body) w))
      as [Husers _].
    by eapply elem_of_prefix.
  - intros row rows Hrow%post_todos_201 [-> _]%get_todos_200.
    destruct (serve_preserved env cl ts (run env cl (post_todos body) w))
      as [_ Htodos].
    by eapply elem_of_prefix.
Qed.

Lemma created_rows_are_listed_witness :
  sent (run healthy configured (post_root alice) (boot empty_db))
    = sent (boot empty_db) ++ [Http 201 (BUser alice_row)]
  ∧ sent (run healthy configured get_root
            (serve healthy configured [WsMessage (Text "hi")]
               (run healthy configured (post_root alice) (boot empty_db))))
    = sent (serve healthy configured [WsMessage (Text "hi")]
              (run healthy configured (post_root alice) (boot empty_db)))
      ++ [Http 200 (BUsers [alice_row; User.mk "id-1" "0.0" "0.1"])]
  ∧ alice_row ∈ [alice_row; User.mk "id-1" "0.0" "0.1"].
Proof.
  split; [reflexivity|]. split; [by vm_compute|].
  apply (proj1 (created_rows_are_listed healthy configured alice
                  [WsMessage (Text "hi")] (boot empty_db)) alice_row).
  - reflexivity.
  - by vm_compute.
Defined.

(** * More on the WebSocket server *)

Section Socket.

Context (env : Env) (cl : PrismaClient).

Implicit Types (w : World) (s : WsServer).

Lemma calls_after_call {T} (c : storageE T) r o d n m w :
  calls (mkWorld d n m (trace w ++ [Called c r; Sent o]))
  = calls w ++ [existT _ c].
Proof. unfold calls. cbn [trace]. by rewrite omap_app. Qed.

(** What one frame does to the counters and the tables. *)
Lemma message_step msg w :
  let w' := run env cl (message msg) w in
  ncalls w' = S (ncalls w)
  ∧ nrand w' = S (S (nrand w))
  ∧ length (sent w') = S (length (sent w))
  ∧ todos (db w') = todos (db w)
  ∧ users (db w) `prefix_of` users (db w').
Proof.
  cbv zeta. rewrite run_message. cbv zeta. rewrite sent_after_call.
  cbn [ncalls nrand db]. split_and!; [done|done| | |].
  - rewrite length_app. simpl. lia.
  - rewrite query_user_create.
    destruct (round_trip env cl (ncalls w)); [done|].
    destruct (_ || _); [done|]. by case_bool_decide.
  - rewrite query_user_create.
    destruct (round_trip env cl (ncalls w)); [done|].
    destruct (_ || _); [done|].
    case_bool_decide; [done|]. by apply prefix_app_r.
Qed.

Lemma ws_serve_snoc inbound i s :
  ws_serve env cl (inbound ++ [i]) s
  = ws_step env cl (ws_serve env cl inbound s) i.
Proof. unfold ws_serve. by rewrite foldl_snoc. Qed.

End Socket.

(** X12. What a frame says never reaches the store: two different frames,
    handled in the same situation, make the same Prisma call and leave the
    same tables and counters; they can differ only in what is sent back. *)
Theorem ws_message_content_is_not_stored env cl msg msg' w :
  let w1 := run env cl (message msg) w in
  let w2 := run env cl (message msg') w in
  db w1 = db w2
  ∧ calls w1 = calls w2
  ∧ ncalls w1 = ncalls w2
  ∧ nrand w1 = nrand w2.
Proof.
  cbv zeta. rewrite !run_message. cbv zeta.
  by rewrite !calls_after_call.
Qed.

(** X13. The one frame sent back is the inbound message or the text
    ["Error creating user"]. For every message other than that text, the
    message comes back exactly when a row was stored; a client that sends
    that very text gets it back either way and cannot tell. *)
Theorem ws_reply_reveals_outcome env cl msg w :
  let w' := run env cl (message msg) w in
  ∃ frame,
    sent w' = sent w ++ [WsSend frame]
    ∧ (frame = msg ∨ frame = Text "Error creating user")
    ∧ (msg ≠ Text "Error creating user" → (frame = msg ↔ db w' ≠ db w))
    ∧ (msg = Text "Error creating user" → frame = msg).
Proof.
  cbv zeta. rewrite run_message. cbv zeta. rewrite sent_after_call.
  cbn [db]. rewrite query_user_create.
  destruct (round_trip env cl (ncalls w)) as [f|].
  { exists (Text "Error creating user").
    split_and!; [done|auto| |done].
    intros Hmsg. split; [done|]. by intros []. }
  destruct (_ || _).
  { exists (Text "Error creating user").
    split_and!; [done|auto| |done].
    intros Hmsg. split; [done|]. by intros []. }
  case_bool_decide as Hid.
  { exists (Text "Error creating user").
    split_and!; [done|auto| |done].
    intros Hmsg. split; [done|]. by intros []. }
  exists msg. split_and!; [done|auto| |done].
  intros _. split; [|done]. intros _ Heq.
  apply (f_equal users) in Heq. cbn [users snd] in Heq.
  by apply snoc_ne in Heq.
Qed.

Lemma ws_reply_reveals_outcome_witness :
  Text "hi" ≠ Text "Error creating user"
  ∧ sent (run healthy configured (message (Text "hi")) (boot empty_db))
    = [WsSend (Text "hi")]
  ∧ db (run healthy configured (message (Text "hi")) (boot empty_db))
    ≠ db (boot empty_db).
Proof.
  assert (Hne : Text "hi" ≠ Text "Error creating user") by done.
  destruct (ws_reply_reveals_outcome healthy configured (Text "hi")
              (boot empty_db)) as (frame & Hsent & _ & Hiff & _).
  assert (Hframe : frame = Text "hi").
  { assert (Hrun : sent (run healthy configured (message (Text "hi"))
                           (boot empty_db)) = [WsSend (Text "hi")])
      by by vm_compute.
    rewrite Hrun in Hsent. by injection Hsent as <-. }
  split; [exact Hne|]. split; [by vm_compute|].
  apply (Hiff Hne). exact Hframe.
Defined.

(** X14. A whole session on the WebSocket port. Each frame causes exactly
    one Prisma call, two random draws and one frame back; requests cause
    none of these. The [Todo] table is never touched and the [User] table
    only grows. Each request is answered by [fetch] alone: the upgrade, or
    500 with the text ["Upgrade failed"]. *)
Theorem ws_session env cl inbound s :
  let s' := ws_serve env cl inbound s in
  let frames := length (filter (λ i, is_frame i = true) inbound) in
  ncalls (ws_world s') = (ncalls (ws_world s) + frames)%nat
  ∧ nrand (ws_world s') = (nrand (ws_world s) + 2 * frames)%nat
  ∧ length (sent (ws_world s')) = (length (sent (ws_world s)) + frames)%nat
  ∧ todos (db (ws_world s')) = todos (db (ws_world s))
  ∧ users (db (ws_world s)) `prefix_of` users (db (ws_world s'))
  ∧ ws_fetched s' =
    ws_fetched s ++
    omap (λ i, match i with
               | WsRequest true => Some Upgraded
               | WsRequest false => Some (Refused 500 "Upgrade failed")
               | WsFrame _ => None
               end) inbound.
Proof.
  cbv zeta. induction inbound as [|i inbound IH] using rev_ind.
  - simpl. rewrite app_nil_r. split_and!; try done; lia.
  - rewrite ws_serve_snoc, filter_app, length_app, omap_app.
    destruct IH as (Hcalls & Hrand & Hsent & Htodos & Husers & Hfetched).
    destruct i as [upgradable|msg]; cbn [ws_step ws_world ws_fetched].
    + rewrite Hfetched, <- app_assoc.
      split_and!; [simpl; lia|simpl; lia|simpl; lia|done|done|].
      by destruct upgradable.
    + destruct (message_step env cl msg
                  (ws_world (ws_serve env cl inbound s)))
        as (Hc & Hr & Hs & Ht & Hu).
      rewrite Hc, Hr, Hs, Ht, Hcalls, Hrand, Hsent, Htodos, Hfetched.
      split_and!; [simpl; lia|simpl; lia|simpl; lia|done| |].
      * by etrans.
      * simpl. by rewrite app_nil_r.
Qed.

(** * More on the page and on the store *)


Section Counting.

Context (env : Env) (cl : PrismaClient).

Implicit Types (w : World) (p : Prog).

Lemma count_snoc f evs e :
  count f (evs ++ [e]) = (count f evs + if f e then 1 else 0)%nat.
Proof.
  unfold count. rewrite filter_app, length_app. f_equal.
  rewrite filter_cons, filter_nil. by destruct (f e).
Qed.

(** One awaited call adds a row to a table exactly when it is a fulfilled
    [create] on that table. *)
Lemma query_rows {T} n (c : storageE T) d :
  length (users (query env cl n c d).2) =
    (length (users d)
     + if user_created (Called c (query env cl n c d).1) then 1 else 0)%nat
  ∧ length (todos (query env cl n c d).2) =
    (length (todos d)
     + if todo_created (Called c (query env cl n c d).1) then 1 else 0)%nat.
Proof.
  destruct c as [| |username password|task userId done]; simpl.
  - destruct (round_trip env cl n); simpl; lia.
  - destruct (round_trip env cl n); simpl; lia.
  - destruct (as_string username), (as_string password); simpl; try lia.
    destruct (round_trip env cl n); simpl; [lia|].
    unfold db_insert_user. destruct (_ || _); simpl; [lia|].
    case_bool_decide; simpl; [lia|].
    rewrite length_app. simpl. lia.
  - destruct (as_string task), (as_string userId), (as_optional_bool done);
      simpl; try lia.
    destruct (round_trip env cl n); simpl; [lia|].
    unfold db_insert_todo. destruct (_ || _); simpl; [lia|].
    repeat case_bool_decide; simpl; try lia.
    rewrite length_app. simpl. lia.
Qed.

Lemma run_rows p w :
  (length (users (db (run env cl p w))) + count user_created (trace w)
   = length (users (db w)) + count user_created (trace (run env cl p w)))%nat
  ∧ (length (todos (db (run env cl p w))) + count todo_created (trace w)
     = length (todos (db w)) + count todo_created (trace (run env cl p w)))%nat.
Proof.
  revert w. induction p as [|e|T c k IH|T c k IH|k IH|o k IH]; intros w.
  - done.
  - simpl. unfold log. simpl. rewrite !count_snoc. simpl. lia.
  - rewrite run_await.
    destruct (IH (query env cl (ncalls w) c (db w)).1
                (mkWorld (query env cl (ncalls w) c (db w)).2 (S (ncalls w))
                   (nrand w)
                   (trace w ++ [Called c (query env cl (ncalls w) c (db w)).1])))
      as [IHu IHt].
    destruct (query_rows (ncalls w) c (db w)) as [Hu Ht].
    cbn [db trace] in IHu, IHt. rewrite count_snoc in IHu, IHt.
    rewrite Hu in IHu. rewrite Ht in IHt. lia.
  - destruct (IH (log (Dropped c) w)) as [IHu IHt].
    simpl. unfold log in *. cbn [db trace] in *.
    rewrite count_snoc in IHu, IHt. simpl in IHu, IHt. lia.
  - apply (IH _ (mkWorld (db w) (ncalls w) (S (nrand w)) (trace w))).
  - destruct (IH (log (Sent o) w)) as [IHu IHt].
    simpl. unfold log in *. cbn [db trace] in *.
    rewrite count_snoc in IHu, IHt. simpl in IHu, IHt. lia.
Qed.

Lemma inserted_consistent d d' : inserted d d' → consistent d → consistent d'.
Proof.
  destruct 1; eauto using consistent_insert_user, consistent_insert_todo.
Qed.

Lemma run_consistent p w :
  consistent (db w) → consistent (db (run env cl p w)).
Proof.
  induction (run_inserted env cl p w) as [|d1 d2 d3 H _ IH]; [done|].
  intros Hd. by apply IH, (inserted_consistent d1).
Qed.

End Counting.

(** X16. Rows and fulfilled creates match: after the services have handled
    any triggers starting from a store [d], the [User] table has as many rows
    as [d] had plus the number of fulfilled [user.create] calls, and the
    [Todo] table as many as [d] had plus the number of fulfilled
    [todo.create] calls. No row appears without such a call and none is
    lost. *)
Theorem rows_match_fulfilled_creates env cl ts d :
  let w' := serve env cl ts (boot d) in
  length (users (db w')) =
    (length (users d) + count user_created (trace w'))%nat
  ∧ length (todos (db w')) =
    (length (todos d) + count todo_created (trace w'))%nat.
Proof.
  cbv zeta. induction ts as [|t ts IH] using rev_ind.
  { unfold count. simpl. split; lia. }
  rewrite serve_snoc.
  destruct (run_rows env cl (handle t) (serve env cl ts (boot d)))
    as [Hu Ht].
  lia.
Qed.

(** X17. The services keep a consistent store consistent, whatever it held
    to begin with: after any triggers the ids of the [User] table are still
    pairwise distinct, so are the ids of the [Todo] table, and every
    [Todo.userId] is still the id of a stored [User]. *)
Theorem services_keep_consistency env cl ts w :
  consistent (db w) →
  NoDup (user_ids (db (serve env cl ts w)))
  ∧ NoDup (todo_ids (db (serve env cl ts w)))
  ∧ fk_ok (db (serve env cl ts w)).
Proof.
  intros Hw. induction ts as [|t ts IH] using rev_ind; [done|].
  rewrite serve_snoc. by apply run_consistent.
Qed.

Lemma services_keep_consistency_witness :
  consistent (db (boot one_user_one_todo))
  ∧ NoDup (todo_ids (db (serve healthy configured
                           [HttpRequest POST_todos buy_milk;
                            HttpRequest POST_todos dangling_todo;
                            WsMessage (Text "hi")]
                           (boot one_user_one_todo)))).
Proof.
  assert (Hstart : consistent (db (boot one_user_one_todo))).
  { apply reachable_consistent.
    apply (reachable_step (OInsertTodo "id-1" "buy milk" None "id-0")
             one_user); [|reflexivity].
    apply (reachable_step (OInsertUser alice_row) empty_db); [|reflexivity].
    apply reachable_empty. }
  split; [exact Hstart|].
  apply (services_keep_consistency healthy configured
           [HttpRequest POST_todos buy_milk;
            HttpRequest POST_todos dangling_todo;
            WsMessage (Text "hi")]
           (boot one_user_one_todo) Hstart).
Defined.

(** X18. [ON UPDATE CASCADE]: when the id of a stored [User] is changed to
    another id and the store accepts the statement, the user is found under
    the new id — with the same [username] and [password] — and no longer
    under the old one; every [Todo] that referenced the old id is found with
    the new one and otherwise as it was, every other [Todo] and every other
    [User] is found as it was, no [Todo] references the old id, and the
    [Todo] table has the same ids and the same number of rows. Nothing is
    said about the order in which the rows are read back. *)
Theorem update_user_id_cascades old new d d' :
  old ≠ new →
  old ∈ user_ids d →
  db_update_user_id old new d = inr d' →
  (new ∈ user_ids d') ∧ (old ∉ user_ids d')
  ∧ (old ∉ Todo.userId <$> todos d')
  ∧ (∀ u, u ∈ users d → User.id u = old →
          User.mk new (User.username u) (User.password u) ∈ users d')
  ∧ (∀ u, u ∈ users d → User.id u ≠ old → u ∈ users d')
  ∧ (∀ t, t ∈ todos d → Todo.userId t = old →
          Todo.mk (Todo.id t) (Todo.task t) (Todo.done t) new ∈ todos d')
  ∧ (∀ t, t ∈ todos d → Todo.userId t ≠ old → t ∈ todos d')
  ∧ todo_ids d' ≡ₚ todo_ids d
  ∧ length (todos d') = length (todos d)
  ∧ length (users d') = length (users d).
Proof.
  intros Hne Hold Hupdate.
  assert (Husers : users d' ≡ₚ rename_user old new <$> users d
                   ∧ todos d' ≡ₚ retarget_todo old new <$> todos d).
  { revert Hupdate. unfold db_update_user_id.
    destruct (has_nul old || has_nul new); [done|].
    rewrite (bool_decide_eq_true_2 _ Hold).
    case_bool_decide; [done|]. intros [= <-]. cbn [users todos].
    rewrite (bool_decide_eq_false_2 _ Hne). split.
    - apply rewritten_rows. intros u Hu. by apply rename_user_other.
    - apply rewritten_rows. intros t Ht. by apply retarget_todo_other. }
  destruct Husers as [Husers Htodos].
  unfold user_ids, todo_ids in *. split_and!.
  - rewrite Husers.
    apply list_elem_of_fmap in Hold as (u & -> & Hu).
    apply list_elem_of_fmap. exists (rename_user (User.id u) new u).
    split; [|by apply list_elem_of_fmap_2].
    rewrite rename_user_id. unfold swap_id.
    by rewrite bool_decide_eq_true_2.
  - rewrite Husers.
    intros (u' & Hid & (u & -> & Hu)%list_elem_of_fmap)%list_elem_of_fmap.
    rewrite rename_user_id in Hid. unfold swap_id in Hid.
    by case_bool_decide.
  - rewrite Htodos.
    intros (t' & Hid & (t & -> & Ht)%list_elem_of_fmap)%list_elem_of_fmap.
    rewrite retarget_todo_userId in Hid. unfold swap_id in Hid.
    by case_bool_decide.
  - intros u Hu Hid. rewrite Husers.
    apply list_elem_of_fmap. exists u. split; [|done].
    unfold rename_user. by rewrite bool_decide_eq_true_2.
  - intros u Hu Hid. rewrite Husers.
    apply list_elem_of_fmap. exists u. split; [|done].
    by rewrite rename_user_other.
  - intros t Ht Hid. rewrite Htodos.
    apply list_elem_of_fmap. exists t. split; [|done].
    unfold retarget_todo. by rewrite bool_decide_eq_true_2.
  - intros t Ht Hid. rewrite Htodos.
    apply list_elem_of_fmap. exists t. split; [|done].
    by rewrite retarget_todo_other.
  - rewrite Htodos, <- list_fmap_compose.
    apply Permutation_refl'. apply list_fmap_ext.
    intros _ t _. apply retarget_todo_id.
  - by rewrite Htodos, length_fmap.
  - by rewrite Husers, length_fmap.
Qed.

Lemma update_user_id_cascades_witness :
  "id-0" ≠ "id-9"
  ∧ "id-0" ∈ user_ids shared_todos
  ∧ (∃ d', db_update_user_id "id-0" "id-9" shared_todos = inr d'
           ∧ Todo.mk "id-1" "buy milk" false "id-9" ∈ todos d'
           ∧ Todo.mk "id-3" "read" false "id-9" ∈ todos d'
           ∧ Todo.mk "id-2" "walk" true "id-5" ∈ todos d'
           ∧ User.mk "id-9" "alice" "p1" ∈ users d'
           ∧ ("id-0" ∉ Todo.userId <$> todos d')).
Proof.
  assert (H1 : "id-0" ≠ "id-9") by done.
  assert (H2 : "id-0" ∈ user_ids shared_todos).
  { apply (bool_decide_eq_true_1 _). by vm_compute. }
  split; [exact H1|]. split; [exact H2|].
  destruct (db_update_user_id "id-0" "id-9" shared_todos) as [e|d'] eqn:H3;
    [by vm_compute in H3|].
  exists d'. split; [reflexivity|].
  destruct (update_user_id_cascades "id-0" "id-9" shared_todos d' H1 H2 H3)
    as (_ & _ & Hnone & Huser & _ & Hmoved & Hkept & _).
  split_and!.
  - apply (Hmoved (Todo.mk "id-1" "buy milk" false "id-0")); [|done].
    apply list_elem_of_here.
  - apply (Hmoved (Todo.mk "id-3" "read" false "id-0")); [|done].
    do 2 apply list_elem_of_further. apply list_elem_of_here.
  - apply (Hkept (Todo.mk "id-2" "walk" true "id-5")); [|done].
    apply list_elem_of_further, list_elem_of_here.
  - apply (Huser alice_row); [|done]. apply list_elem_of_here.
  - exact Hnone.
Defined.
